(** * escpos/network.py: a resilient TCP/IP connection with retry and backoff

    A shallow embedding of [escpos/network.py] (pyescpos): the [backoff]
    decorator, the [RetrySettings] class and the [NetworkConnection] class,
    followed by the properties of the retry loop, of the readiness checks
    and of the raw read and write primitives. *)

From Equations Require Import Equations.
From Stdlib Require Import ZArith QArith List Ascii String Bool Arith Lia.
Import ListNotations.

Local Open Scope Z_scope.

(** ** Exceptions *)

(** The exception classes the module names or can meet.  [socket_error] is
    [socket.error]; [socket_timeout] is [socket.timeout], one of its
    subclasses. *)
Inductive pyclass : Type :=
| BaseException
| Exception
| KeyboardInterrupt
| ValueError
| RuntimeError
| TypeError
| AttributeError
| socket_error
| socket_timeout
| NonReadableSocketError
| NonWritableSocketError.

Definition pyclass_eq_dec (a b : pyclass) : {a = b} + {a <> b}.
Proof. decide equality. Defined.

(** Modelled from the spec: [escpos/exceptions.py], which defines
    [NonReadableSocketError] and [NonWritableSocketError], is not part of
    the sources; the spec speaks of a flat exception hierarchy, so both are
    taken as direct subclasses of [Exception].  The other rows are the
    method resolution orders of Python's built-in classes. *)
Definition mro (c : pyclass) : list pyclass :=
  match c with
  | BaseException => [BaseException]
  | Exception => [Exception; BaseException]
  | KeyboardInterrupt => [KeyboardInterrupt; BaseException]
  | ValueError => [ValueError; Exception; BaseException]
  | RuntimeError => [RuntimeError; Exception; BaseException]
  | TypeError => [TypeError; Exception; BaseException]
  | AttributeError => [AttributeError; Exception; BaseException]
  | socket_error => [socket_error; Exception; BaseException]
  | socket_timeout => [socket_timeout; socket_error; Exception; BaseException]
  | NonReadableSocketError => [NonReadableSocketError; Exception; BaseException]
  | NonWritableSocketError => [NonWritableSocketError; Exception; BaseException]
  end.

Definition issubclass (c d : pyclass) : bool :=
  existsb (fun a => if pyclass_eq_dec a d then true else false) (mro c).

(** Socket objects are identified by the order of their creation. *)
Definition handle : Type := nat.

Inductive AddressFamily : Type := AF_INET | AF_INET6 | AF_UNIX.
Inductive SocketKind : Type := SOCK_STREAM | SOCK_DGRAM.

(** The arguments [_raise_with_details] hands to [format], in order. *)
Record details : Type := Details {
  d_message : string;
  d_socket : option handle;
  d_host : string;
  d_port : Z;
  d_family : AddressFamily;
  d_type : SocketKind
}.

(** An exception object: [Exc] is raised by library or caller code,
    [ExcDetails] is what [_raise_with_details] builds. *)
Inductive exn : Type :=
| Exc (cls : pyclass) (msg : string)
| ExcDetails (cls : pyclass) (d : details).

Definition class_of (e : exn) : pyclass :=
  match e with
  | Exc c _ => c
  | ExcDetails c _ => c
  end.

(** [isinstance(er, classes)] for a tuple of classes, the test of an
    [except classes as er] clause. *)
Definition isinstance (er : exn) (classes : list pyclass) : bool :=
  existsb (issubclass (class_of er)) classes.

(** The outcome of a call: a value or a raised exception. *)
Inductive result (A : Type) : Type :=
| Returned (v : A)
| Raised (e : exn).
Arguments Returned {A} v.
Arguments Raised {A} e.

(** ** Retry settings *)

Module Settings.
Record t : Type := Build {
  max_tries : Z;
  delay : Z;
  backoff : Z;
  exceptions : list pyclass
}.
End Settings.

Definition RetrySettings : Settings.t :=
  {| Settings.max_tries := 3;
     Settings.delay := 3;
     Settings.backoff := 2;
     Settings.exceptions :=
       [NonReadableSocketError; NonWritableSocketError; socket_error] |}.

(** ** The retry loop *)

(** What a run of [inner] did, in order: a call of the wrapped function
    (with the exception it raised, if any) or a [time.sleep]. *)
Inductive attempt : Type :=
| Call (er : option exn)
| Sleep (d : Z).

Record run (St A : Type) : Type := Run {
  retval : result (option A);
  final : St;
  mtries_left : Z;
  log : list attempt
}.
Arguments Run {St A}.
Arguments retval {St A}.
Arguments final {St A}.
Arguments mtries_left {St A}.
Arguments log {St A}.

Definition add_log {St A} (l : list attempt) (r : run St A) : run St A :=
  Run (retval r) (final r) (mtries_left r) (l ++ log r).

Fixpoint calls (l : list attempt) : nat :=
  match l with
  | [] => 0
  | Call _ :: l' => S (calls l')
  | Sleep _ :: l' => calls l'
  end.

Fixpoint sleeps (l : list attempt) : list Z :=
  match l with
  | [] => []
  | Call _ :: l' => sleeps l'
  | Sleep d :: l' => d :: sleeps l'
  end.

(** The exceptions of the successive calls of a log. *)
Fixpoint outcomes (l : list attempt) : list (option exn) :=
  match l with
  | [] => []
  | Call er :: l' => er :: outcomes l'
  | Sleep _ :: l' => outcomes l'
  end.

(** Calls with the given outcomes, a sleep between each two: of [d], then
    of [d * b], and so on. *)
Fixpoint schedule (b d : Z) (ers : list (option exn)) : list attempt :=
  match ers with
  | [] => []
  | er :: ers' =>
      Call er ::
      match ers' with
      | [] => []
      | _ :: _ => Sleep d :: schedule b (d * b) ers'
      end
  end.

Section Backoff.
Context {St A : Type}.
Variable settings : Settings.t.
(** [time.sleep] and the wrapped function applied to its arguments, as
    transformers of the state of the world. *)
Variable sleep : Z -> St -> St.
Variable f : St -> result A * St.

(** The [while mtries > 0] loop of [inner].  [Returned None] is the
    implicit [None] of a loop that ends without [return]. *)
Equations? inner_loop (mtries mdelay : Z) (s : St) : run St A
  by wf (Z.to_nat mtries) lt :=
  inner_loop mtries mdelay s with Z_gt_dec mtries 0 => {
    | right _ => Run (Returned None) s mtries [];
    | left _ with f s => {
        | (Returned v, s1) => Run (Returned (Some v)) s1 mtries [Call None];
        | (Raised er, s1) with isinstance er (Settings.exceptions settings) => {
            | false => Run (Raised er) s1 mtries [Call (Some er)];
            | true with Z_le_dec (mtries - 1) 0 => {
                | left _ => Run (Raised er) s1 (mtries - 1) [Call (Some er)];
                | right _ =>
                    add_log [Call (Some er); Sleep mdelay]
                      (inner_loop (mtries - 1)
                         (mdelay * Settings.backoff settings)
                         (sleep mdelay s1)) } } } }.
Proof. lia. Qed.

Definition inner (s : St) : run St A :=
  inner_loop (Settings.max_tries settings) (Settings.delay settings) s.

(** The state in which the call number [i] (from 0) starts when every
    earlier call raised a retryable exception. *)
Fixpoint attempt_state (i : nat) (mdelay : Z) (s : St) : St :=
  match i with
  | O => s
  | S j => attempt_state j (mdelay * Settings.backoff settings) (sleep mdelay (snd (f s)))
  end.

Definition fails_retryably (s : St) : bool :=
  match fst (f s) with
  | Raised er => isinstance er (Settings.exceptions settings)
  | Returned _ => false
  end.

Definition succeeds (s : St) : bool :=
  match fst (f s) with
  | Returned _ => true
  | Raised _ => false
  end.
End Backoff.

Definition outter (settings : Settings.t) {St A : Type}
    (sleep : Z -> St -> St) (f : St -> result A * St) : St -> run St A :=
  inner settings sleep f.

Definition decorator : Type :=
  forall St A : Type,
    (Z -> St -> St) -> (St -> result A * St) -> St -> run St A.

(** [backoff(settings)]: the three checks, then the decorator. *)
Definition backoff (settings : Settings.t) : exn + decorator :=
  if Settings.max_tries settings <=? 0 then
    inl (Exc ValueError "Max tries must be greater than 0")
  else if Settings.delay settings <=? 0 then
    inl (Exc ValueError "Delay must be greater than 0")
  else if Settings.backoff settings <=? 1 then
    inl (Exc ValueError "Backoff must be greater than 1")
  else inr (@outter settings).

(** ** The socket library *)

Definition bytes : Type := list Byte.byte.

(** An exception raised by a library call. *)
Record liberr : Type := LibErr { err_class : pyclass; err_msg : string }.

Definition lib_exn (e : liberr) : exn := Exc (err_class e) (err_msg e).

Definition ready_sets : Type := (list handle * list handle * list handle)%type.

(** The calls the module makes into [socket], [select] and [time], as
    transformers of the state of the world outside the program.  Each may
    raise; [send] returns the number of bytes it took. *)
Record SocketAPI (World : Type) : Type := {
  os_socket : AddressFamily -> SocketKind -> World -> (liberr + unit) * World;
  os_setsockopt : handle -> World -> (liberr + unit) * World;
  os_connect : handle -> string -> Z -> World -> (liberr + unit) * World;
  os_shutdown : handle -> World -> (liberr + unit) * World;
  os_close : handle -> World -> (liberr + unit) * World;
  os_select : list handle -> list handle -> list handle -> Q -> World ->
              (liberr + ready_sets) * World;
  os_send : handle -> bytes -> World -> (liberr + nat) * World;
  os_recv : handle -> Z -> World -> (liberr + bytes) * World;
  os_sleep : Z -> World -> World
}.
Arguments os_socket {World}.
Arguments os_setsockopt {World}.
Arguments os_connect {World}.
Arguments os_shutdown {World}.
Arguments os_close {World}.
Arguments os_select {World}.
Arguments os_send {World}.
Arguments os_recv {World}.
Arguments os_sleep {World}.

(** What the program did to the outside, in order.  [EvReconnect] marks an
    entry into [_reconnect]; [EvError] a library call that raised. *)
Inductive event : Type :=
| EvSocket (fam : AddressFamily) (ty : SocketKind) (h : handle)
| EvSetsockopt (h : handle)
| EvConnect (h : handle) (host : string) (port : Z)
| EvShutdown (h : handle)
| EvClose (h : handle)
| EvSelect (rlist wlist xlist : list handle) (timeout : Q) (ready : ready_sets)
| EvSend (h : handle) (data : bytes) (sent : nat)
| EvRecv (h : handle) (bufsize : Z) (data : bytes)
| EvSleep (d : Z)
| EvError (e : liberr)
| EvReconnect.

(** ** NetworkConnection *)

Definition DEFAULT_READ_BUFSIZE : Z := 4096.

Record NetworkConnection : Type := {
  socket : option handle;
  host_name : string;
  port_number : Z;
  address_family : AddressFamily;
  socket_type : SocketKind;
  select_timeout : Q;
  read_buffer_size : Z
}.

(** [__init__], its keyword arguments given in full. *)
Definition __init__ (host : string) (port : Z) (address_family : AddressFamily)
    (socket_type : SocketKind) (select_timeout : Q) (read_buffer_size : Z)
    : NetworkConnection :=
  {| socket := None;
     host_name := host;
     port_number := port;
     address_family := address_family;
     socket_type := socket_type;
     select_timeout := select_timeout;
     read_buffer_size := read_buffer_size |}.

Definition set_socket (s : option handle) (c : NetworkConnection)
    : NetworkConnection :=
  {| socket := s;
     host_name := host_name c;
     port_number := port_number c;
     address_family := address_family c;
     socket_type := socket_type c;
     select_timeout := select_timeout c;
     read_buffer_size := read_buffer_size c |}.

Section Connection.
Context {World : Type}.
Variable os : SocketAPI World.

(** The connection object, the world outside, and the identity the next
    socket object will get. *)
Record state : Type := State {
  self : NetworkConnection;
  world : World;
  next_handle : handle
}.

(** The outcome of a method: its result, the state it leaves and the
    events it emitted. *)
Record out (A : Type) : Type := Out {
  value : result A;
  post : state;
  emitted : list event
}.
Arguments Out {A}.
Arguments value {A}.
Arguments post {A}.
Arguments emitted {A}.

Definition M (A : Type) : Type := state -> out A.

Definition ret {A} (a : A) : M A := fun st => Out (Returned a) st [].

Definition raise {A} (e : exn) : M A := fun st => Out (Raised e) st [].

Definition bind {A B} (m : M A) (k : A -> M B) : M B := fun st =>
  match m st with
  | Out (Returned a) st1 ev1 =>
      let o := k a st1 in Out (value o) (post o) (ev1 ++ emitted o)
  | Out (Raised e) st1 ev1 => Out (Raised e) st1 ev1
  end.

Notation "x <- m ;; k" := (bind m (fun x => k))
  (at level 61, m at next level, right associativity).
Notation "m ;; k" := (bind m (fun _ => k))
  (at level 61, right associativity).

Definition emit (e : event) : M unit := fun st => Out (Returned tt) st [e].

Definition get_self : M NetworkConnection := fun st =>
  Out (Returned (self st)) st [].

Definition assign_socket (s : option handle) : M unit := fun st =>
  Out (Returned tt) (State (set_socket s (self st)) (world st) (next_handle st)) [].

(** A library call that returns [r] emits [ev r]; one that raises emits
    [EvError]. *)
Definition libcall {R} (call : World -> (liberr + R) * World)
    (ev : R -> event) : M R := fun st =>
  match call (world st) with
  | (inl e, w) =>
      Out (Raised (lib_exn e)) (State (self st) w (next_handle st)) [EvError e]
  | (inr r, w) =>
      Out (Returned r) (State (self st) w (next_handle st)) [ev r]
  end.

(** [socket.socket(family, type)]: a new socket object. *)
Definition socket_socket (fam : AddressFamily) (ty : SocketKind) : M handle :=
  fun st =>
  match os_socket os fam ty (world st) with
  | (inl e, w) =>
      Out (Raised (lib_exn e)) (State (self st) w (next_handle st)) [EvError e]
  | (inr _, w) =>
      Out (Returned (next_handle st))
          (State (self st) w (S (next_handle st)))
          [EvSocket fam ty (next_handle st)]
  end.

(** [self.socket], for a method call on it: [None] has no methods. *)
Definition self_socket : M handle :=
  c <- get_self ;;
  match socket c with
  | Some h => ret h
  | None => raise (Exc AttributeError "'NoneType' object has no attribute")
  end.

(** [select.select(rlist, wlist, xlist, timeout)] on lists that hold
    [self.socket]; [None] is not a file object. *)
Definition select_select (rlist wlist xlist : list (option handle))
    (timeout : Q) : M ready_sets :=
  let unwrap := fold_right
    (fun o acc => match o, acc with
                  | Some h, Some l => Some (h :: l)
                  | _, _ => None
                  end) (Some []) in
  match unwrap rlist, unwrap wlist, unwrap xlist with
  | Some r, Some w, Some x =>
      libcall (os_select os r w x timeout) (EvSelect r w x timeout)
  | _, _, _ => raise (Exc TypeError "argument must be an int, or have a fileno() method")
  end.

Definition _raise_with_details {A} (message : string)
    (exctype : option pyclass) : M A :=
  c <- get_self ;;
  raise (ExcDetails
           (match exctype with Some t => t | None => RuntimeError end)
           (Details message (socket c) (host_name c) (port_number c)
              (address_family c) (socket_type c))).

Definition _raw_release : M unit :=
  c <- get_self ;;
  match socket c with
  | Some h =>
      libcall (os_shutdown os h) (fun _ => EvShutdown h) ;;
      libcall (os_close os h) (fun _ => EvClose h) ;;
      assign_socket None
  | None => ret tt
  end.

Definition _raw_catch : M unit :=
  c <- get_self ;;
  h <- socket_socket (address_family c) (socket_type c) ;;
  assign_socket (Some h) ;;
  h <- self_socket ;;
  libcall (os_setsockopt os h) (fun _ => EvSetsockopt h) ;;
  h <- self_socket ;;
  c <- get_self ;;
  libcall (os_connect os h (host_name c) (port_number c))
          (fun _ => EvConnect h (host_name c) (port_number c)).

Definition _reconnect : M unit :=
  emit EvReconnect ;;
  _raw_release ;;
  _raw_catch.

Definition is_empty {T} (l : list T) : bool :=
  match l with [] => true | _ => false end.

(** The [for tries in range(2): ... else: ...] loop of
    [_assert_writable]: [ret] is the [break], the empty range runs the
    [else] clause. *)
Fixpoint _assert_writable_loop (range : list Z) : M unit :=
  match range with
  | [] => _raise_with_details "cannot read from socket"
            (Some NonWritableSocketError)
  | _ :: range' =>
      c <- get_self ;;
      ready <- select_select [] [socket c] [socket c] (select_timeout c) ;;
      let '(readable, writable, in_error) := ready in
      if negb (is_empty writable) then ret tt
      else (_reconnect ;; _assert_writable_loop range')
  end.

Definition _assert_writable : M unit :=
  c <- get_self ;;
  (match socket c with
   | None => _reconnect
   | Some _ => ret tt
   end) ;;
  _assert_writable_loop [0; 1].

Fixpoint _assert_readable_loop (range : list Z) : M unit :=
  match range with
  | [] => _raise_with_details "cannot read from socket"
            (Some NonReadableSocketError)
  | _ :: range' =>
      c <- get_self ;;
      ready <- select_select [socket c] [] [socket c] (select_timeout c) ;;
      let '(readable, writable, in_error) := ready in
      if negb (is_empty readable) then ret tt
      else (_reconnect ;; _assert_readable_loop range')
  end.

Definition _assert_readable : M unit :=
  c <- get_self ;;
  (match socket c with
   | None => _reconnect
   | Some _ => ret tt
   end) ;;
  _assert_readable_loop [0; 1].

Definition socket_send (data : bytes) : M nat :=
  h <- self_socket ;;
  libcall (os_send os h data) (EvSend h data).

(** The [while totalsent < len(data)] loop of [_raw_write]. *)
Equations? _raw_write_loop (data : bytes) (totalsent : nat) (st : state)
  : out unit by wf (List.length data - totalsent)%nat lt :=
  _raw_write_loop data totalsent st with lt_dec totalsent (List.length data) => {
    | right _ => ret tt st;
    | left _ with socket_send (skipn totalsent data) st => {
        | Out (Raised e) st1 ev1 => Out (Raised e) st1 ev1;
        | Out (Returned O) st1 ev1 =>
            let o := _raise_with_details "socket connection broken" None st1
            in Out (value o) (post o) (ev1 ++ emitted o);
        | Out (Returned (S n)) st1 ev1 =>
            let o := _raw_write_loop data (totalsent + S n) st1
            in Out (value o) (post o) (ev1 ++ emitted o) } }.
Proof. lia. Qed.

Definition _raw_write (data : bytes) : M unit :=
  _assert_writable ;;
  _raw_write_loop data 0.

(** [try: ... except: return ''] catches every exception.  The empty
    string of the handler and an empty [recv] are both the empty list. *)
Definition _raw_read : M bytes := fun st =>
  match (_assert_readable ;;
         h <- self_socket ;;
         c <- get_self ;;
         libcall (os_recv os h (read_buffer_size c))
                 (EvRecv h (read_buffer_size c))) st with
  | Out (Returned data) st1 ev1 => Out (Returned data) st1 ev1
  | Out (Raised _) st1 ev1 => Out (Returned []) st1 ev1
  end.

Definition __del__ : M unit := _raw_release.

(** The state the decorated methods run in: the state of the program
    and the events so far. *)
Definition history : Type := (state * list event)%type.

Definition method {A} (m : M A) : history -> result A * history :=
  fun '(st, tr) => let o := m st in (value o, (post o, tr ++ emitted o)).

Definition time_sleep (d : Z) : history -> history :=
  fun '(st, tr) =>
    (State (self st) (os_sleep os d (world st)) (next_handle st),
     tr ++ [EvSleep d]).

Definition release : history -> run history unit :=
  outter RetrySettings time_sleep (method _raw_release).

Definition catch : history -> run history unit :=
  outter RetrySettings time_sleep (method _raw_catch).

Definition write (data : bytes) : history -> run history unit :=
  outter RetrySettings time_sleep (method (_raw_write data)).

Definition read : history -> run history bytes :=
  outter RetrySettings time_sleep (method _raw_read).
End Connection.

Arguments state World : clear implicits.
Arguments out World A : clear implicits.
Arguments M World A : clear implicits.
Arguments history World : clear implicits.
Arguments Out {World A}.
Arguments value {World A}.
Arguments post {World A}.
Arguments emitted {World A}.

(** ** A simulated transport *)

(** A scripted world: the answers of the successive [select] calls (ready
    or not), the sizes the successive [send] calls take at most, whether
    [shutdown] raises, and what [recv] delivers.  An exhausted script
    answers ready, and takes everything. *)
Record sim : Type := Sim {
  sim_select : list bool;
  sim_send : list nat;
  sim_shutdown_raises : bool;
  sim_recv : liberr + bytes
}.

Definition sim_os : SocketAPI sim :=
  {| os_socket := fun _ _ w => (inr tt, w);
     os_setsockopt := fun _ w => (inr tt, w);
     os_connect := fun _ _ _ w => (inr tt, w);
     os_shutdown := fun _ w =>
       if sim_shutdown_raises w
       then (inl (LibErr socket_error "Transport endpoint is not connected"), w)
       else (inr tt, w);
     os_close := fun _ w => (inr tt, w);
     os_select := fun r wl x _ w =>
       match sim_select w with
       | [] => (inr (r, wl, []), w)
       | b :: bs =>
           (inr (if b then (r, wl, []) else ([], [], [])),
            Sim bs (sim_send w) (sim_shutdown_raises w) (sim_recv w))
       end;
     os_send := fun _ data w =>
       match sim_send w with
       | [] => (inr (List.length data), w)
       | n :: ns =>
           (inr (Nat.min n (List.length data)),
            Sim (sim_select w) ns (sim_shutdown_raises w) (sim_recv w))
       end;
     os_recv := fun _ _ w => (sim_recv w, w);
     os_sleep := fun _ w => w |}.

(** A connection to 127.0.0.1:9100 with the default keyword arguments. *)
Definition printer : NetworkConnection :=
  __init__ "127.0.0.1" 9100 AF_INET SOCK_STREAM 1%Q DEFAULT_READ_BUFSIZE.

(** A connected socket on a transport whose next two polls find it not
    ready. *)
Definition stalled : state sim :=
  State (set_socket (Some 0%nat) printer) (Sim [false; false] [] false (inr [])) 1%nat.

(** Three bytes to write. *)
Definition abc : bytes := [Byte.x61; Byte.x62; Byte.x63].

(** A connected socket on a transport that is ready, takes one byte and
    then nothing. *)
Definition broken : state sim :=
  State (set_socket (Some 0%nat) printer) (Sim [] [1%nat; 0%nat] false (inr [])) 1%nat.

(** A connected socket whose [shutdown] raises. *)
Definition unplugged : state sim :=
  State (set_socket (Some 0%nat) printer) (Sim [] [] true (inr [])) 1%nat.

(** A function that raises [e] as long as its counter is below [n]. *)
Definition flaky (e : exn) (n : nat) (s : nat) : result nat * nat :=
  if (s <? n)%nat then (Raised e, S s) else (Returned s, S s).

Definition no_sleep (d : Z) (s : nat) : nat := s.

(** The delays [d], [d * b], ..., [d * b ^ (k - 1)]. *)
Definition geometric (d b : Z) (k : nat) : list Z :=
  map (fun i => d * b ^ Z.of_nat i) (seq 0 k).

(** ** The two readiness checks, seen as one *)

Section Readiness.
Context {World : Type}.
Variable os : SocketAPI World.

Local Notation "x <- m ;; k" := (bind m (fun x => k))
  (at level 61, m at next level, right associativity).
Local Notation "m ;; k" := (bind m (fun _ => k))
  (at level 61, right associativity).

(** The [select] of the check for writing ([w = true]) or for reading, and
    the list of the answer it looks at. *)
Definition poll (w : bool) (c : NetworkConnection) : M World ready_sets :=
  if w then select_select os [] [socket c] [socket c] (select_timeout c)
  else select_select os [socket c] [] [socket c] (select_timeout c).

Definition pick (w : bool) (ready : ready_sets) : list handle :=
  let '(readable, writable, in_error) := ready in
  if w then writable else readable.

Definition not_ready (w : bool) : pyclass :=
  if w then NonWritableSocketError else NonReadableSocketError.

Fixpoint ready_loop (w : bool) (range : list Z) : M World unit :=
  match range with
  | [] => _raise_with_details "cannot read from socket" (Some (not_ready w))
  | _ :: range' =>
      c <- get_self ;;
      ready <- poll w c ;;
      if negb (is_empty (pick w ready)) then ret tt
      else (_reconnect os ;; ready_loop w range')
  end.

Definition assert_ready (w : bool) : M World unit :=
  c <- get_self ;;
  (match socket c with
   | None => _reconnect os
   | Some _ => ret tt
   end) ;;
  ready_loop w [0; 1].
End Readiness.

(** The events of a reconnect that replaces socket [h] by the new [h']. *)
Definition reconnect_events (c : NetworkConnection) (h : option handle)
    (h' : handle) : list event :=
  EvReconnect ::
  match h with
  | Some h => [EvShutdown h; EvClose h]
  | None => []
  end ++
  [EvSocket (address_family c) (socket_type c) h';
   EvSetsockopt h';
   EvConnect h' (host_name c) (port_number c)].

(** The event of a [select] on socket [h] by the check for writing
    ([w = true]) or for reading. *)
Definition select_event (w : bool) (c : NetworkConnection) (h : handle)
    (ready : ready_sets) : event :=
  if w then EvSelect [] [h] [h] (select_timeout c) ready
  else EvSelect [h] [] [h] (select_timeout c) ready.

Definition details_of (message : string) (c : NetworkConnection) : details :=
  Details message (socket c) (host_name c) (port_number c)
    (address_family c) (socket_type c).

Fixpoint reconnects (evs : list event) : nat :=
  match evs with
  | [] => 0
  | EvReconnect :: evs' => S (reconnects evs')
  | _ :: evs' => reconnects evs'
  end.

(** The [send] events of a write of [data] in chunks, from [totalsent]. *)
Fixpoint send_events (h : handle) (data : bytes) (totalsent : nat)
    (chunks : list nat) : list event :=
  match chunks with
  | [] => []
  | n :: chunks' =>
      EvSend h (skipn totalsent data) n ::
      send_events h data (totalsent + n) chunks'
  end.

Definition is_send (e : event) : Prop :=
  match e with
  | EvSend _ _ _ => True
  | _ => False
  end.

(** A transport whose [send] takes a positive part of what it is given,
    whatever the socket and the state of the world. *)
Definition partial_chunks {World : Type} (os : SocketAPI World) : Prop :=
  forall h (d : bytes) w,
    d <> [] ->
    exists n w',
      os_send os h d w = (inr n, w') /\ (0 < n <= List.length d)%nat.

(** A transport that is always ready and takes one to three bytes for
    each [send]; its world counts the calls of [send]. *)
Definition trickle_os : SocketAPI nat :=
  {| os_socket := fun _ _ w => (inr tt, w);
     os_setsockopt := fun _ w => (inr tt, w);
     os_connect := fun _ _ _ w => (inr tt, w);
     os_shutdown := fun _ w => (inr tt, w);
     os_close := fun _ w => (inr tt, w);
     os_select := fun r wl x _ w => (inr (r, wl, []), w);
     os_send := fun _ data w =>
       (inr (Nat.min (S (w mod 3)) (List.length data)), S w);
     os_recv := fun _ _ w => (inr [], w);
     os_sleep := fun _ w => w |}.

(** [_assert_writable] ([w = true]) or [_assert_readable]. *)
Definition readiness_check {World : Type} (os : SocketAPI World) (w : bool)
    : M World unit :=
  if w then _assert_writable os else _assert_readable os.

(** Python discards an exception that a [__del__] it runs raises. *)
Definition finalize {World : Type} (os : SocketAPI World) : M World unit :=
  fun st =>
    let o := __del__ os st in
    Out (Returned tt) (post o) (emitted o).

(** The attributes [__init__] sets and no method assigns. *)
Definition same_config (c c' : NetworkConnection) : Prop :=
  host_name c = host_name c' /\
  port_number c = port_number c' /\
  address_family c = address_family c' /\
  socket_type c = socket_type c' /\
  select_timeout c = select_timeout c' /\
  read_buffer_size c = read_buffer_size c'.

Definition is_release (e : event) : Prop :=
  match e with
  | EvShutdown _ | EvClose _ => True
  | _ => False
  end.

(** A transport on which [shutdown] of socket [h] always raises. *)
Definition shutdown_raises {World : Type} (os : SocketAPI World)
    (h : handle) : Prop :=
  forall w, exists e w', os_shutdown os h w = (inl e, w').

(** A transport on which sockets are made, connected and released
    without error, and no [select] finds anything ready. *)
Definition never_ready {World : Type} (os : SocketAPI World) : Prop :=
  (forall r wl x t w,
     exists x' w', os_select os r wl x t w = (inr ([], [], x'), w')) /\
  (forall fam ty w, exists w', os_socket os fam ty w = (inr tt, w')) /\
  (forall h w, exists w', os_setsockopt os h w = (inr tt, w')) /\
  (forall h host port w, exists w', os_connect os h host port w = (inr tt, w')) /\
  (forall h w, exists w', os_shutdown os h w = (inr tt, w')) /\
  (forall h w, exists w', os_close os h w = (inr tt, w')).

(** A peer that accepts connections and then stays silent and full. *)
Definition dead_os : SocketAPI unit :=
  {| os_socket := fun _ _ w => (inr tt, w);
     os_setsockopt := fun _ w => (inr tt, w);
     os_connect := fun _ _ _ w => (inr tt, w);
     os_shutdown := fun _ w => (inr tt, w);
     os_close := fun _ w => (inr tt, w);
     os_select := fun _ _ _ _ w => (inr ([], [], []), w);
     os_send := fun _ _ w => (inr 0%nat, w);
     os_recv := fun _ _ w => (inr [], w);
     os_sleep := fun _ w => w |}.

(** A transport whose every [shutdown] raises, as on a socket whose peer
    is gone. *)
Definition rusty_os : SocketAPI unit :=
  {| os_socket := fun _ _ w => (inr tt, w);
     os_setsockopt := fun _ w => (inr tt, w);
     os_connect := fun _ _ _ w => (inr tt, w);
     os_shutdown := fun _ w =>
       (inl (LibErr socket_error "Transport endpoint is not connected"), w);
     os_close := fun _ w => (inr tt, w);
     os_select := fun _ _ _ _ w => (inr ([], [], []), w);
     os_send := fun _ data w => (inr (List.length data), w);
     os_recv := fun _ _ w => (inr [], w);
     os_sleep := fun _ w => w |}.

(** ** NetworkConnection.create *)

(** The split of [s] at its last [sep]: what [s.rsplit(sep, 1)] holds
    when [sep] occurs in [s]. *)
Fixpoint rsplit_last (sep : Ascii.ascii) (s : string)
    : option (string * string) :=
  match s with
  | EmptyString => None
  | String c rest =>
      match rsplit_last sep rest with
      | Some (before, after) => Some (String c before, after)
      | None =>
          if Ascii.eqb c sep then Some (EmptyString, rest) else None
      end
  end.

(** [s.rsplit(sep, 1)]. *)
Definition rsplit (s : string) (sep : Ascii.ascii) : list string :=
  match rsplit_last sep s with
  | Some (before, after) => [before; after]
  | None => [s]
  end.

Fixpoint occurs (sep : Ascii.ascii) (s : string) : bool :=
  match s with
  | EmptyString => false
  | String c rest => Ascii.eqb c sep || occurs sep rest
  end.

Section Create.
(** Python's [int] of a string, a value or an exception. *)
Variable int : string -> exn + Z.

(** [create(setting, **kwargs)], the keyword arguments given in full;
    unpacking a list of one string into [host, port] raises. *)
Definition create (setting : string) (address_family : AddressFamily)
    (socket_type : SocketKind) (select_timeout : Q) (read_buffer_size : Z)
    : result NetworkConnection :=
  match rsplit setting ":"%char with
  | [host; port] =>
      match int port with
      | inl e => Raised e
      | inr p =>
          Returned (__init__ host p address_family socket_type
                      select_timeout read_buffer_size)
      end
  | _ => Raised (Exc ValueError "not enough values to unpack")
  end.
End Create.

(** An [int] for port numbers of up to five decimal digits. *)
Definition digit_value (c : Ascii.ascii) : option Z :=
  let n := Z.of_nat (Ascii.nat_of_ascii c) in
  if (48 <=? n) && (n <=? 57) then Some (n - 48) else None.

Fixpoint decimal (acc : Z) (s : string) : option Z :=
  match s with
  | EmptyString => Some acc
  | String c rest =>
      match digit_value c with
      | Some d => decimal (10 * acc + d) rest
      | None => None
      end
  end.

Definition int_of_digits (s : string) : exn + Z :=
  match s with
  | EmptyString => inl (Exc ValueError "invalid literal for int()")
  | _ =>
      match decimal 0 s with
      | Some n => inr n
      | None => inl (Exc ValueError "invalid literal for int()")
      end
  end.

(** ** The retry loop: properties *)

Lemma geometric_S d b k :
  geometric d b (S k) = d :: geometric (d * b) b k.
Proof.
  unfold geometric. cbn [seq map].
  rewrite Z.pow_0_r, Z.mul_1_r. f_equal.
  rewrite <- seq_shift, map_map.
  apply map_ext. intros i.
  rewrite Nat2Z.inj_succ, Z.pow_succ_r by lia. ring.
Qed.

Section BackoffFacts.
Context {St A : Type}.
Variable settings : Settings.t.
Variable sleep : Z -> St -> St.
Variable f : St -> result A * St.

Local Abbreviation excs := (Settings.exceptions settings).
Local Abbreviation b := (Settings.backoff settings).

(** The loop, one iteration unfolded. *)
Lemma inner_loop_step (mtries mdelay : Z) (s : St) :
  inner_loop settings sleep f mtries mdelay s =
  if mtries >? 0 then
    match f s with
    | (Returned v, s1) => Run (Returned (Some v)) s1 mtries [Call None]
    | (Raised er, s1) =>
        if isinstance er excs then
          if mtries - 1 <=? 0
          then Run (Raised er) s1 (mtries - 1) [Call (Some er)]
          else add_log [Call (Some er); Sleep mdelay]
                 (inner_loop settings sleep f (mtries - 1) (mdelay * b)
                    (sleep mdelay s1))
        else Run (Raised er) s1 mtries [Call (Some er)]
    end
  else Run (Returned None) s mtries [].
Proof.
  simp inner_loop. rewrite Z.gtb_ltb.
  destruct (Z_gt_dec mtries 0) as [Hgt | Hle], (Z.ltb_spec 0 mtries);
    try lia; simp inner_loop; [| reflexivity].
  destruct (f s) as [[v | er] s1]; simp inner_loop; [reflexivity |].
  destruct (isinstance er (Settings.exceptions settings));
    simp inner_loop; [| reflexivity].
  destruct (Z_le_dec (mtries - 1) 0), (Z.leb_spec (mtries - 1) 0);
    try lia; simp inner_loop; reflexivity.
Qed.


Ltac loop_cases :=
  rewrite inner_loop_step; rewrite ?Z.gtb_ltb;
  repeat match goal with
    | |- context [Z.ltb ?x ?y] => destruct (Z.ltb_spec x y)
    | |- context [Z.leb ?x ?y] => destruct (Z.leb_spec x y)
    | |- context [match f ?s with _ => _ end] =>
        let E := fresh "Ef" in destruct (f s) as [[? | ?] ?] eqn:E
    | |- context [isinstance ?e ?c] =>
        let E := fresh "Ei" in destruct (isinstance e c) eqn:E
    end.

Lemma calls_positive mtries mdelay s :
  0 < mtries ->
  (1 <= calls (log (inner_loop settings sleep f mtries mdelay s)))%nat.
Proof. intros Hm. loop_cases; cbn; lia. Qed.

Lemma calls_bounded n : forall mtries mdelay s,
  Z.to_nat mtries = n ->
  (calls (log (inner_loop settings sleep f mtries mdelay s)) <= n)%nat.
Proof.
  induction n as [| n IH]; intros mtries mdelay s Hn;
    loop_cases; cbn; try lia.
  specialize (IH (mtries - 1) (mdelay * b) (sleep mdelay s0)).
  lia.
Qed.

Lemma loop_sleeps n : forall mtries mdelay s,
  Z.to_nat mtries = n ->
  sleeps (log (inner_loop settings sleep f mtries mdelay s)) =
  geometric mdelay b
    (calls (log (inner_loop settings sleep f mtries mdelay s)) - 1).
Proof.
  induction n as [| n IH]; intros mtries mdelay s Hn;
    loop_cases; cbn [log add_log calls sleeps app retval final mtries_left];
    try reflexivity; try lia.
  rewrite Nat.sub_succ, Nat.sub_0_r.
  pose proof (calls_positive (mtries - 1) (mdelay * b)
                (sleep mdelay s0)) as Hpos.
  rewrite (IH (mtries - 1)) by lia.
  destruct (calls _) as [| c]; [lia |].
  rewrite geometric_S, Nat.sub_succ, Nat.sub_0_r. reflexivity.
Qed.

Lemma outcomes_nonempty mtries mdelay s :
  0 < mtries ->
  outcomes (log (inner_loop settings sleep f mtries mdelay s)) <> [].
Proof. intros Hm. loop_cases; cbn; try lia; discriminate. Qed.

Lemma loop_schedule n : forall mtries mdelay s,
  Z.to_nat mtries = n ->
  log (inner_loop settings sleep f mtries mdelay s) =
  schedule b mdelay
    (outcomes (log (inner_loop settings sleep f mtries mdelay s))).
Proof.
  induction n as [| n IH]; intros mtries mdelay s Hn;
    loop_cases; cbn [log add_log app outcomes schedule];
    try reflexivity; try lia.
  pose proof (outcomes_nonempty (mtries - 1) (mdelay * b)
                (sleep mdelay s0) ltac:(lia)) as Hne.
  pose proof (IH (mtries - 1) (mdelay * b) (sleep mdelay s0) ltac:(lia))
    as Hrec.
  destruct (outcomes _) as [| er ers]; congruence.
Qed.

Lemma loop_all_fail n : forall mtries mdelay s,
  mtries = Z.of_nat (S n) ->
  (forall j, (j <= n)%nat ->
     fails_retryably settings f
       (attempt_state settings sleep f j mdelay s) = true) ->
  exists e s',
    f (attempt_state settings sleep f n mdelay s) = (Raised e, s') /\
    inner_loop settings sleep f mtries mdelay s =
    Run (Raised e) s' 0
      (log (inner_loop settings sleep f mtries mdelay s)) /\
    calls (log (inner_loop settings sleep f mtries mdelay s)) = S n.
Proof.
  induction n as [| n IH]; intros mtries mdelay s Hm Hfail.
  - pose proof (Hfail 0%nat (Nat.le_refl _)) as H0.
    unfold fails_retryably in H0. cbn in H0 |- *.
    loop_cases; cbn in H0; try lia; try discriminate; try congruence.
    exists e, s0. repeat split. cbn. f_equal. lia.
  - pose proof (Hfail 0%nat (Nat.le_0_l _)) as H0.
    unfold fails_retryably in H0. cbn [attempt_state] in H0 |- *.
    loop_cases; cbn in H0; try lia; try discriminate; try congruence.
    cbn [snd].
    destruct (IH (mtries - 1) (mdelay * b) (sleep mdelay s0))
      as (e' & s' & Hf & Hrun & Hcalls); [lia | |].
    + intros j Hj. specialize (Hfail (S j)). cbn [attempt_state] in Hfail.
      rewrite Ef in Hfail. apply Hfail. lia.
    + exists e', s'. split; [exact Hf |]. split.
      * rewrite Hrun at 1. reflexivity.
      * cbn. now rewrite Hcalls.
Qed.

Lemma loop_first_success k : forall mtries mdelay s,
  0 < mtries ->
  (forall j, (j < k)%nat ->
     fails_retryably settings f
       (attempt_state settings sleep f j mdelay s) = true) ->
  succeeds f (attempt_state settings sleep f k mdelay s) = true ->
  calls (log (inner_loop settings sleep f mtries mdelay s)) =
  Nat.min (Z.to_nat mtries) (S k).
Proof.
  induction k as [| k IH]; intros mtries mdelay s Hm Hfail Hok.
  - unfold succeeds in Hok. cbn in Hok.
    loop_cases; cbn in Hok |- *; try lia; discriminate.
  - pose proof (Hfail 0%nat (Nat.lt_0_succ _)) as H0.
    unfold fails_retryably in H0. cbn [attempt_state] in H0, Hok.
    loop_cases; cbn in H0 |- *; try lia; try discriminate; try congruence.
    cbn [snd] in Hok.
    rewrite (IH (mtries - 1) (mdelay * b) (sleep mdelay s0)); try lia.
    + intros j Hj. specialize (Hfail (S j)). cbn [attempt_state] in Hfail.
      rewrite Ef in Hfail. apply Hfail. lia.
    + exact Hok.
Qed.

(** The calls of a run are made in the states [attempt_state 0], ...,
    [attempt_state k]; all but the last raise a retryable exception, and
    the result and the final state of the run are those of the last. *)
Lemma loop_trace n : forall mtries mdelay s,
  Z.to_nat mtries = n ->
  0 < mtries ->
  (forall j,
     (j < calls (log (inner_loop settings sleep f mtries mdelay s)) - 1)%nat ->
     fails_retryably settings f
       (attempt_state settings sleep f j mdelay s) = true) /\
  retval (inner_loop settings sleep f mtries mdelay s) =
    match fst (f (attempt_state settings sleep f
                    (calls (log (inner_loop settings sleep f mtries mdelay s)) - 1)
                    mdelay s)) with
    | Returned v => Returned (Some v)
    | Raised e => Raised e
    end /\
  final (inner_loop settings sleep f mtries mdelay s) =
    snd (f (attempt_state settings sleep f
              (calls (log (inner_loop settings sleep f mtries mdelay s)) - 1)
              mdelay s)).
Proof.
  induction n as [| n IH]; intros mtries mdelay s Hn Hm; [lia |].
  loop_cases; try lia;
    cbn [log add_log app calls retval final Nat.sub attempt_state];
    try (rewrite Ef; cbn [fst snd]; repeat split; auto; intros j Hj; lia).
  pose proof (calls_positive (mtries - 1) (mdelay * b) (sleep mdelay s0)
                ltac:(lia)) as Hpos.
  destruct (IH (mtries - 1) (mdelay * b) (sleep mdelay s0)
              ltac:(lia) ltac:(lia)) as (Hfail & Hret & Hfin).
  rewrite Nat.sub_0_r.
  destruct (calls (log (inner_loop settings sleep f (mtries - 1)
                          (mdelay * b) (sleep mdelay s0)))) as [| c] eqn:Hc;
    [lia |].
  cbn [Nat.sub] in Hfail, Hret, Hfin. rewrite Nat.sub_0_r in *.
  cbn [attempt_state]. rewrite Ef. cbn [snd].
  split; [| split; assumption].
  intros [| j] Hj.
  - cbn [attempt_state]. unfold fails_retryably. now rewrite Ef.
  - cbn [attempt_state]. rewrite Ef. cbn [snd]. apply Hfail. lia.
Qed.

(** What the wrapped function and [time.sleep] both keep, a run keeps. *)
Lemma loop_invariant (P : St -> Prop) :
  (forall s, P s -> P (snd (f s))) ->
  (forall d s, P s -> P (sleep d s)) ->
  forall n mtries mdelay s,
    Z.to_nat mtries = n ->
    P s ->
    P (final (inner_loop settings sleep f mtries mdelay s)).
Proof.
  intros Hf Hsl. induction n as [| n IH]; intros mtries mdelay s Hn Hs;
    loop_cases; cbn [final add_log]; try lia; auto;
    try (specialize (Hf s Hs); rewrite Ef in Hf; exact Hf).
  apply IH; [lia |]. apply Hsl.
  specialize (Hf s Hs). now rewrite Ef in Hf.
Qed.
End BackoffFacts.

(** The default settings pass the checks of [backoff]: the decorated
    methods of [NetworkConnection] are what [backoff(RetrySettings)]
    builds. *)
Lemma backoff_RetrySettings : backoff RetrySettings = inr (@outter RetrySettings).
Proof. reflexivity. Qed.

Lemma backoff_inr settings wrap :
  backoff settings = inr wrap ->
  wrap = @outter settings /\
  0 < Settings.max_tries settings /\
  0 < Settings.delay settings /\
  1 < Settings.backoff settings.
Proof.
  unfold backoff.
  destruct (Z.leb_spec (Settings.max_tries settings) 0); [discriminate |].
  destruct (Z.leb_spec (Settings.delay settings) 0); [discriminate |].
  destruct (Z.leb_spec (Settings.backoff settings) 1); [discriminate |].
  intros [= <-]. auto.
Qed.

(** C8: [backoff(settings)] returns the decorator exactly when
    [max_tries > 0], [delay > 0] and [backoff > 1]; in every other case it
    raises a [ValueError] and returns no decorator, so nothing can be
    wrapped or called through it. *)
Theorem backoff_validates_settings (settings : Settings.t) :
  (0 < Settings.max_tries settings /\
   0 < Settings.delay settings /\
   1 < Settings.backoff settings <->
   backoff settings = inr (@outter settings)) /\
  (~ (0 < Settings.max_tries settings /\
      0 < Settings.delay settings /\
      1 < Settings.backoff settings) <->
   exists msg, backoff settings = inl (Exc ValueError msg)).
Proof.
  unfold backoff.
  destruct (Z.leb_spec (Settings.max_tries settings) 0);
    [| destruct (Z.leb_spec (Settings.delay settings) 0);
       [| destruct (Z.leb_spec (Settings.backoff settings) 1)]].
  all: split; split;
    try (intros; lia); try discriminate; try (intros; eauto; fail);
    try (intros [msg [=]]); try reflexivity.
Qed.

(** C4: when the wrapped function raises an exception that is no instance
    of [settings.exceptions], the decorated function calls it once and
    raises that exception: the log holds the one call and no sleep, and
    [mtries] still holds [max_tries]. *)
Theorem non_retryable_propagates_at_once {St A : Type}
    (settings : Settings.t) (wrap : decorator)
    (sleep : Z -> St -> St) (f : St -> result A * St)
    (s s' : St) (e : exn) :
  backoff settings = inr wrap ->
  f s = (Raised e, s') ->
  isinstance e (Settings.exceptions settings) = false ->
  wrap St A sleep f s =
  Run (Raised e) s' (Settings.max_tries settings) [Call (Some e)].
Proof.
  intros Hb Hf He.
  apply backoff_inr in Hb. destruct Hb as (-> & Hm & _).
  unfold outter, inner. rewrite inner_loop_step, Hf, He.
  destruct (Z.gtb_spec (Settings.max_tries settings) 0); [reflexivity | lia].
Qed.

Lemma non_retryable_propagates_at_once_witness :
  outter RetrySettings no_sleep (flaky (Exc RuntimeError "boom") 5) 0%nat =
  Run (Raised (Exc RuntimeError "boom")) 1%nat 3 [Call (Some (Exc RuntimeError "boom"))].
Proof.
  apply (non_retryable_propagates_at_once RetrySettings (@outter RetrySettings));
    reflexivity.
Defined.

(** C5: in every run of the decorated function the sleeps lie between
    successive calls, one per retry, and their durations are [delay],
    [delay * backoff], ..., [delay * backoff ^ (k - 1)] for the [k]
    retries made: each sleep takes the current delay, and the next one
    that delay times [backoff]. *)
Theorem sleeps_grow_geometrically {St A : Type}
    (settings : Settings.t)
    (sleep : Z -> St -> St) (f : St -> result A * St) (s : St) :
  sleeps (log (outter settings sleep f s)) =
  geometric (Settings.delay settings) (Settings.backoff settings)
    (calls (log (outter settings sleep f s)) - 1) /\
  List.length (sleeps (log (outter settings sleep f s))) =
  (calls (log (outter settings sleep f s)) - 1)%nat /\
  log (outter settings sleep f s) =
  schedule (Settings.backoff settings) (Settings.delay settings)
    (outcomes (log (outter settings sleep f s))).
Proof.
  unfold outter, inner.
  rewrite (loop_sleeps settings sleep f _ _ _ _ eq_refl).
  split; [reflexivity |].
  split; [unfold geometric; now rewrite length_map, length_seq |].
  apply (loop_schedule settings sleep f _ _ _ _ eq_refl).
Qed.

(** C3: with [max_tries = N] the wrapped function is called at most [N]
    times; when each of its first [N] calls raises a retryable exception
    it is called exactly [N] times and the exception of the last call is
    the one raised to the caller; when its call number [k + 1] is the
    first to return, the earlier ones raising retryable exceptions, it is
    called [min N (k + 1)] times. *)
Theorem retry_bound {St A : Type}
    (settings : Settings.t) (wrap : decorator)
    (sleep : Z -> St -> St) (f : St -> result A * St) (s : St) :
  backoff settings = inr wrap ->
  (calls (log (wrap St A sleep f s)) <=
   Z.to_nat (Settings.max_tries settings))%nat /\
  ((forall j, (j < Z.to_nat (Settings.max_tries settings))%nat ->
      fails_retryably settings f
        (attempt_state settings sleep f j (Settings.delay settings) s) = true) ->
   calls (log (wrap St A sleep f s)) = Z.to_nat (Settings.max_tries settings) /\
   exists e s',
     f (attempt_state settings sleep f
          (Z.to_nat (Settings.max_tries settings) - 1)
          (Settings.delay settings) s) = (Raised e, s') /\
     retval (wrap St A sleep f s) = Raised e /\
     final (wrap St A sleep f s) = s') /\
  (forall k,
     (forall j, (j < k)%nat ->
        fails_retryably settings f
          (attempt_state settings sleep f j (Settings.delay settings) s) = true) ->
     succeeds f
       (attempt_state settings sleep f k (Settings.delay settings) s) = true ->
     calls (log (wrap St A sleep f s)) =
     Nat.min (Z.to_nat (Settings.max_tries settings)) (S k)).
Proof.
  intros Hb. apply backoff_inr in Hb. destruct Hb as (-> & Hm & _).
  unfold outter, inner. repeat split.
  - now apply calls_bounded.
  - destruct (loop_all_fail settings sleep f
                (Z.to_nat (Settings.max_tries settings) - 1)
                (Settings.max_tries settings) (Settings.delay settings) s)
      as (e & s' & _ & _ & Hc); [lia | | rewrite Hc; lia].
    intros j Hj. apply H. lia.
  - destruct (loop_all_fail settings sleep f
                (Z.to_nat (Settings.max_tries settings) - 1)
                (Settings.max_tries settings) (Settings.delay settings) s)
      as (e & s' & Hf & Hrun & _); [lia | |].
    + intros j Hj. apply H. lia.
    + exists e, s'. rewrite Hrun. auto.
  - intros k Hfail Hok. now apply loop_first_success.
Qed.

Lemma retry_bound_witness :
  (calls (log (outter RetrySettings no_sleep
                 (flaky (Exc socket_timeout "timed out") 5) 0%nat)) <= 3)%nat /\
  calls (log (outter RetrySettings no_sleep
                (flaky (Exc socket_timeout "timed out") 5) 0%nat)) = 3%nat /\
  retval (outter RetrySettings no_sleep
            (flaky (Exc socket_timeout "timed out") 5) 0%nat) =
  Raised (Exc socket_timeout "timed out") /\
  calls (log (outter RetrySettings no_sleep
                (flaky (Exc socket_timeout "timed out") 2) 0%nat)) = 3%nat /\
  calls (log (outter RetrySettings no_sleep
                (flaky (Exc socket_timeout "timed out") 7) 6%nat)) = 2%nat.
Proof.
  pose proof (retry_bound RetrySettings (@outter RetrySettings) no_sleep
                (flaky (Exc socket_timeout "timed out") 5) 0%nat eq_refl)
    as (Hle & Hall & _).
  pose proof (retry_bound RetrySettings (@outter RetrySettings) no_sleep
                (flaky (Exc socket_timeout "timed out") 2) 0%nat eq_refl)
    as (_ & _ & Hk2).
  pose proof (retry_bound RetrySettings (@outter RetrySettings) no_sleep
                (flaky (Exc socket_timeout "timed out") 7) 6%nat eq_refl)
    as (_ & _ & Hk1).
  split; [exact Hle |].
  destruct Hall as (Hc & e & s' & Hf & Hr & _).
  { intros j Hj. change (Z.to_nat (Settings.max_tries RetrySettings)) with 3%nat in Hj.
    destruct j as [| [| [| j]]]; try reflexivity. lia. }
  split; [exact Hc |].
  split; [rewrite Hr; injection Hf as <- _; reflexivity |].
  split.
  - apply (Hk2 2%nat); [| reflexivity].
    intros j Hj. destruct j as [| [| j]]; try reflexivity. lia.
  - apply (Hk1 1%nat); [| reflexivity].
    intros j Hj. destruct j as [| j]; try reflexivity. lia.
Defined.

(** ** The connection: properties *)

Section ConnectionFacts.
Context {World : Type}.
Variable os : SocketAPI World.

Local Notation "x <- m ;; k" := (bind m (fun x => k))
  (at level 61, m at next level, right associativity).
Local Notation "m ;; k" := (bind m (fun _ => k))
  (at level 61, right associativity).

Lemma bind_ext {A B} (m : M World A) (k k' : A -> M World B) :
  (forall a st, k a st = k' a st) ->
  forall st, bind m k st = bind m k' st.
Proof.
  intros H st. unfold bind.
  destruct (m st) as [[a | e] st1 ev1]; [| reflexivity].
  now rewrite H.
Qed.

Lemma assert_writable_loop_eq range : forall st,
  _assert_writable_loop os range st = ready_loop os true range st.
Proof.
  induction range as [| x range IH]; intros st; cbn [_assert_writable_loop ready_loop];
    [reflexivity |].
  apply bind_ext. intros c st1. apply bind_ext. intros [[r wl] x'] st2.
  cbn [pick]. destruct (negb (is_empty wl)); [reflexivity |].
  apply bind_ext. intros _ st3. apply IH.
Qed.

Lemma assert_readable_loop_eq range : forall st,
  _assert_readable_loop os range st = ready_loop os false range st.
Proof.
  induction range as [| x range IH]; intros st; cbn [_assert_readable_loop ready_loop];
    [reflexivity |].
  apply bind_ext. intros c st1. apply bind_ext. intros [[r wl] x'] st2.
  cbn [pick]. destruct (negb (is_empty r)); [reflexivity |].
  apply bind_ext. intros _ st3. apply IH.
Qed.

Lemma assert_writable_eq st : _assert_writable os st = assert_ready os true st.
Proof.
  unfold _assert_writable, assert_ready.
  apply bind_ext. intros c st1. apply bind_ext. intros _ st2.
  apply assert_writable_loop_eq.
Qed.

Lemma assert_readable_eq st : _assert_readable os st = assert_ready os false st.
Proof.
  unfold _assert_readable, assert_ready.
  apply bind_ext. intros c st1. apply bind_ext. intros _ st2.
  apply assert_readable_loop_eq.
Qed.

(** Case analysis on the library calls, in the order they are made. *)
Ltac settled w :=
  lazymatch w with
  | context [os_socket] => fail
  | context [os_setsockopt] => fail
  | context [os_connect] => fail
  | context [os_shutdown] => fail
  | context [os_close] => fail
  | context [os_select] => fail
  | context [os_send] => fail
  | context [os_recv] => fail
  | _ => idtac
  end.

Ltac os_case :=
  match goal with
  | |- context [os_socket os ?a ?b ?w] =>
      settled w; destruct (os_socket os a b w) as [[? | []] ?] eqn:?
  | |- context [os_setsockopt os ?h ?w] =>
      settled w; destruct (os_setsockopt os h w) as [[? | []] ?] eqn:?
  | |- context [os_connect os ?h ?a ?b ?w] =>
      settled w; destruct (os_connect os h a b w) as [[? | []] ?] eqn:?
  | |- context [os_shutdown os ?h ?w] =>
      settled w; destruct (os_shutdown os h w) as [[? | []] ?] eqn:?
  | |- context [os_close os ?h ?w] =>
      settled w; destruct (os_close os h w) as [[? | []] ?] eqn:?
  | |- context [os_select os ?r ?wl ?x ?t ?w] =>
      settled w; destruct (os_select os r wl x t w) as [[? | [[? ?] ?]] ?] eqn:?
  | |- context [os_send os ?h ?d ?w] =>
      settled w; destruct (os_send os h d w) as [[? | ?] ?] eqn:?
  | |- context [os_recv os ?h ?n ?w] =>
      settled w; destruct (os_recv os h n w) as [[? | ?] ?] eqn:?
  end.

Ltac run_os := cbn; repeat (os_case; cbn).

Ltac unfold_prims :=
  unfold bind, emit, get_self, assign_socket, socket_socket, self_socket,
    libcall, ret, raise, lib_exn.

(** [bind] without the three copies of its second part, and a way to run
    a method one [bind] and one library call at a time. *)
Definition prepend {A} (ev : list event) (o : out World A) : out World A :=
  match o with
  | Out v st ev' => Out v st (ev ++ ev')
  end.

Lemma bind_step {A B} (m : M World A) (k : A -> M World B) st :
  bind m k st =
  match m st with
  | Out (Returned a) st1 ev1 => prepend ev1 (k a st1)
  | Out (Raised e) st1 ev1 => Out (Raised e) st1 ev1
  end.
Proof.
  unfold bind. destruct (m st) as [[a | e] st1 ev1]; [| reflexivity].
  destruct (k a st1); reflexivity.
Qed.

Ltac exec_step :=
  first
    [ rewrite bind_step
    | os_case
    | match goal with
      | Hs : socket (self ?st) = _ |- context [socket (self ?st)] => rewrite Hs
      end
    | progress unfold get_self, emit, assign_socket, socket_socket,
        self_socket, libcall, ret, raise, lib_exn
    | progress cbn [prepend value post emitted app self world next_handle
                    socket host_name port_number address_family socket_type
                    select_timeout read_buffer_size set_socket] ].

Ltac exec := repeat exec_step.

(** A [_reconnect] that returns has made a new socket object the
    connection's socket, after shutting down and closing the old one. *)
Lemma reconnect_returns st st1 ev1 :
  _reconnect os st = Out (Returned tt) st1 ev1 ->
  self st1 = set_socket (Some (next_handle st)) (self st) /\
  next_handle st1 = S (next_handle st) /\
  ev1 = reconnect_events (self st) (socket (self st)) (next_handle st).
Proof.
  unfold _reconnect, _raw_release, _raw_catch, reconnect_events.
  destruct (socket (self st)) as [h |] eqn:Hs; exec;
    try discriminate; intros [= <- <-]; auto.
Qed.

(** A [_reconnect] that raises, raises what a library call raised. *)
Lemma reconnect_raises st e st1 ev1 :
  _reconnect os st = Out (Raised e) st1 ev1 ->
  exists c msg, e = Exc c msg.
Proof.
  unfold _reconnect, _raw_release, _raw_catch.
  destruct (socket (self st)) as [h |] eqn:Hs; exec;
    try discriminate; intros [= <- <- <-]; eauto.
Qed.

Lemma poll_returns w st rs st1 ev1 :
  poll os w (self st) st = Out (Returned rs) st1 ev1 ->
  exists h,
    socket (self st) = Some h /\
    self st1 = self st /\
    next_handle st1 = next_handle st /\
    ev1 = [select_event w (self st) h rs].
Proof.
  unfold poll, select_select, select_event, libcall, raise.
  destruct w, (socket (self st)) as [h |]; run_os;
    try discriminate; intros [= <- <- <-]; eauto.
Qed.

Lemma poll_raises w st e st1 ev1 :
  poll os w (self st) st = Out (Raised e) st1 ev1 ->
  exists c msg, e = Exc c msg.
Proof.
  unfold poll, select_select, libcall, raise, lib_exn.
  destruct w, (socket (self st)) as [h |]; run_os;
    try discriminate; intros [= <- <- <-]; eauto.
Qed.

Lemma ready_loop_nil w st :
  ready_loop os w [] st =
  Out (Raised (ExcDetails (not_ready w)
                 (details_of "cannot read from socket" (self st)))) st [].
Proof. reflexivity. Qed.

(** An iteration of the loop that lets the failure of the check through:
    the poll found the socket not ready, the reconnect returned. *)
Lemma ready_loop_cons_details w x range st c det :
  value (ready_loop os w (x :: range) st) = Raised (ExcDetails c det) ->
  exists h rs st1,
    socket (self st) = Some h /\
    pick w rs = [] /\
    self st1 = set_socket (Some (next_handle st)) (self st) /\
    next_handle st1 = S (next_handle st) /\
    value (ready_loop os w range st1) = Raised (ExcDetails c det) /\
    post (ready_loop os w (x :: range) st) = post (ready_loop os w range st1) /\
    emitted (ready_loop os w (x :: range) st) =
      select_event w (self st) h rs ::
      reconnect_events (self st) (Some h) (next_handle st) ++
      emitted (ready_loop os w range st1).
Proof.
  cbn [ready_loop]. unfold bind, get_self. cbn [value post emitted app].
  destruct (poll os w (self st) st) as [[rs | e] st0 ev0] eqn:Hp;
    cbn [value post emitted].
  2:{ intros [= ->]. apply poll_raises in Hp. destruct Hp as (? & ? & [=]). }
  destruct (poll_returns _ _ _ _ _ Hp) as (h & Hs & Hself & Hnext & ->).
  destruct (pick w rs) as [| y ys] eqn:Hpick; cbn [is_empty negb];
    [| discriminate].
  destruct (_reconnect os st0) as [[[] | e] st1 ev1] eqn:Hr;
    cbn [value post emitted].
  2:{ intros [= ->]. apply reconnect_raises in Hr. destruct Hr as (? & ? & [=]). }
  destruct (reconnect_returns _ _ _ Hr) as (Hself1 & Hnext1 & ->).
  intros Hv. exists h, rs, st1.
  rewrite Hself1, Hnext1, Hself, Hnext, Hs.
  repeat split; auto.
Qed.

Lemma reconnects_app l1 l2 :
  reconnects (l1 ++ l2) = (reconnects l1 + reconnects l2)%nat.
Proof.
  induction l1 as [| e l1 IH]; [reflexivity |].
  destruct e; cbn; rewrite IH; reflexivity.
Qed.

Lemma reconnects_reconnect_events c h h' :
  reconnects (reconnect_events c h h') = 1%nat.
Proof. destruct h; reflexivity. Qed.

Lemma reconnects_select_event w c h rs l :
  reconnects (select_event w c h rs :: l) = reconnects l.
Proof. destruct w; reflexivity. Qed.

(** The loop of two polls, when it raises the failure of the check. *)
Lemma ready_loop_two_details w st c det :
  value (ready_loop os w [0; 1] st) = Raised (ExcDetails c det) ->
  exists h0 rs0 rs,
    socket (self st) = Some h0 /\
    pick w rs = [] /\
    c = not_ready w /\
    det = details_of "cannot read from socket"
            (set_socket (Some (S (next_handle st))) (self st)) /\
    self (post (ready_loop os w [0; 1] st)) =
      set_socket (Some (S (next_handle st))) (self st) /\
    next_handle (post (ready_loop os w [0; 1] st)) = S (S (next_handle st)) /\
    emitted (ready_loop os w [0; 1] st) =
      (select_event w (self st) h0 rs0 ::
       reconnect_events (self st) (Some h0) (next_handle st)) ++
      select_event w (self st) (next_handle st) rs ::
      reconnect_events (self st) (Some (next_handle st)) (S (next_handle st)).
Proof.
  intros H.
  destruct (ready_loop_cons_details _ _ _ _ _ _ H)
    as (h0 & rs0 & st1 & Hs0 & _ & Hself1 & Hn1 & H1 & Hp1 & He1).
  destruct (ready_loop_cons_details _ _ _ _ _ _ H1)
    as (h1 & rs & st2 & Hs1 & Hpick & Hself2 & Hn2 & H2 & Hp2 & He2).
  rewrite ready_loop_nil in H2, Hp2, He2. cbn [value post emitted] in *.
  injection H2 as <- <-.
  rewrite Hself1 in Hs1. cbn in Hs1. injection Hs1 as <-.
  exists h0, rs0, rs.
  rewrite Hp1, Hp2, He1, He2, Hself2, Hn2, Hself1, Hn1, app_nil_r.
  repeat split; auto.
Qed.

Lemma readiness_check_eq w st :
  readiness_check os w st = assert_ready os w st.
Proof.
  destruct w; [apply assert_writable_eq | apply assert_readable_eq].
Qed.

Lemma assert_ready_connected w st h :
  socket (self st) = Some h ->
  assert_ready os w st =
  Out (value (ready_loop os w [0; 1] st)) (post (ready_loop os w [0; 1] st))
      (emitted (ready_loop os w [0; 1] st)).
Proof.
  intros Hs. unfold assert_ready, bind, get_self, ret.
  cbn [value post emitted app]. rewrite Hs. reflexivity.
Qed.

Lemma assert_ready_disconnected w st :
  socket (self st) = None ->
  assert_ready os w st =
  match _reconnect os st with
  | Out (Returned _) st1 ev1 =>
      Out (value (ready_loop os w [0; 1] st1))
          (post (ready_loop os w [0; 1] st1))
          (ev1 ++ emitted (ready_loop os w [0; 1] st1))
  | Out (Raised e) st1 ev1 => Out (Raised e) st1 ev1
  end.
Proof.
  intros Hs. unfold assert_ready, bind, get_self.
  cbn [value post emitted app]. rewrite Hs.
  destruct (_reconnect os st) as [[[] | e] st1 ev1]; reflexivity.
Qed.

(** The handle the loop of a readiness check starts with: the socket
    object that the reconnect of a disconnected connection creates, or
    else the one the connection holds. *)
Lemma assert_ready_details w st c det :
  value (assert_ready os w st) = Raised (ExcDetails c det) ->
  exists pre rs n,
    c = not_ready w /\
    det = details_of "cannot read from socket"
            (set_socket (Some (S n)) (self st)) /\
    self (post (assert_ready os w st)) = set_socket (Some (S n)) (self st) /\
    next_handle (post (assert_ready os w st)) = S (S n) /\
    emitted (assert_ready os w st) =
      pre ++ select_event w (self st) n rs ::
             reconnect_events (self st) (Some n) (S n) /\
    pick w rs = [] /\
    reconnects (emitted (assert_ready os w st)) =
      match socket (self st) with None => 3%nat | Some _ => 2%nat end.
Proof.
  destruct (socket (self st)) as [h |] eqn:Hs.
  - rewrite (assert_ready_connected _ _ _ Hs). cbn [value post emitted].
    intros H.
    destruct (ready_loop_two_details _ _ _ _ H)
      as (h0 & rs0 & rs & _ & Hpick & -> & -> & Hself & Hnext & Hev).
    eexists _, rs, (next_handle st).
    rewrite Hself, Hnext, Hev.
    repeat split; auto.
    rewrite reconnects_app, !reconnects_select_event,
      !reconnects_reconnect_events. reflexivity.
  - rewrite (assert_ready_disconnected _ _ Hs).
    destruct (_reconnect os st) as [[[] | e] st1 ev1] eqn:Hr;
      cbn [value post emitted].
    2:{ intros [= ->]. apply reconnect_raises in Hr.
        destruct Hr as (? & ? & [=]). }
    destruct (reconnect_returns _ _ _ Hr) as (Hself1 & Hnext1 & ->).
    intros H.
    destruct (ready_loop_two_details _ _ _ _ H)
      as (h0 & rs0 & rs & _ & Hpick & -> & -> & Hself & Hnext & Hev).
    eexists _, rs, (S (next_handle st)).
    rewrite Hself, Hnext, Hev, Hself1, Hnext1, Hs.
    split; [reflexivity |]. split; [reflexivity |].
    split; [reflexivity |]. split; [reflexivity |].
    split; [rewrite app_assoc; reflexivity |].
    split; [exact Hpick |].
    rewrite !reconnects_app, !reconnects_select_event,
      !reconnects_reconnect_events. reflexivity.
Qed.

(** A readiness check that returns leaves the connection with a socket. *)
Lemma ready_loop_returns w range : forall st,
  value (ready_loop os w range st) = Returned tt ->
  exists h, socket (self (post (ready_loop os w range st))) = Some h.
Proof.
  induction range as [| x range IH]; intros st; [discriminate |].
  cbn [ready_loop]. unfold bind, get_self. cbn [value post emitted app].
  destruct (poll os w (self st) st) as [[rs | e] st0 ev0] eqn:Hp;
    cbn [value post emitted]; [| discriminate].
  destruct (poll_returns _ _ _ _ _ Hp) as (h & Hs & Hself & _ & _).
  destruct (negb (is_empty (pick w rs))).
  - intros _. exists h. cbn. now rewrite Hself.
  - destruct (_reconnect os st0) as [[[] | e] st1 ev1];
      cbn [value post emitted]; [apply IH | discriminate].
Qed.

Lemma assert_ready_returns w st :
  value (assert_ready os w st) = Returned tt ->
  exists h, socket (self (post (assert_ready os w st))) = Some h.
Proof.
  destruct (socket (self st)) as [h |] eqn:Hs.
  - rewrite (assert_ready_connected _ _ _ Hs). cbn [value post].
    apply ready_loop_returns.
  - rewrite (assert_ready_disconnected _ _ Hs).
    destruct (_reconnect os st) as [[[] | e] st1 ev1];
      cbn [value post]; [apply ready_loop_returns | discriminate].
Qed.

(** No event of a readiness check is a [send]. *)
Lemma reconnect_no_send st :
  Forall (fun e => ~ is_send e) (emitted (_reconnect os st)).
Proof.
  unfold _reconnect, _raw_release, _raw_catch.
  destruct (socket (self st)) as [h |] eqn:Hs; exec;
    repeat constructor; cbn; tauto.
Qed.

Lemma poll_no_send w c st :
  Forall (fun e => ~ is_send e) (emitted (poll os w c st)).
Proof.
  unfold poll, select_select, libcall, raise.
  destruct w, (socket c) as [h |]; run_os; repeat constructor; cbn; tauto.
Qed.

Lemma ready_loop_no_send w range : forall st,
  Forall (fun e => ~ is_send e) (emitted (ready_loop os w range st)).
Proof.
  induction range as [| x range IH]; intros st; [constructor |].
  cbn [ready_loop]. unfold bind, get_self. cbn [value post emitted app].
  pose proof (poll_no_send w (self st) st) as Hp.
  destruct (poll os w (self st) st) as [[rs | e] st0 ev0];
    cbn [value post emitted] in *; [| exact Hp].
  destruct (negb (is_empty (pick w rs))); cbn [value post emitted ret].
  - now rewrite app_nil_r.
  - pose proof (reconnect_no_send st0) as Hr.
    destruct (_reconnect os st0) as [[[] | e] st1 ev1];
      cbn [value post emitted] in *;
      rewrite ?Forall_app; auto.
Qed.

Lemma assert_ready_no_send w st :
  Forall (fun e => ~ is_send e) (emitted (assert_ready os w st)).
Proof.
  destruct (socket (self st)) as [h |] eqn:Hs.
  - rewrite (assert_ready_connected _ _ _ Hs). apply ready_loop_no_send.
  - rewrite (assert_ready_disconnected _ _ Hs).
    pose proof (reconnect_no_send st) as Hr.
    destruct (_reconnect os st) as [[[] | e] st1 ev1];
      cbn [value post emitted] in *; [| exact Hr].
    rewrite Forall_app. split; [exact Hr | apply ready_loop_no_send].
Qed.

(** [self.socket.send(data)], by what the connection holds and what the
    library answers. *)
Lemma socket_send_eq data st :
  socket_send os data st =
  match socket (self st) with
  | None =>
      Out (Raised (Exc AttributeError "'NoneType' object has no attribute")) st []
  | Some h =>
      match os_send os h data (world st) with
      | (inl e, w) =>
          Out (Raised (lib_exn e)) (State (self st) w (next_handle st)) [EvError e]
      | (inr n, w) =>
          Out (Returned n) (State (self st) w (next_handle st)) [EvSend h data n]
      end
  end.
Proof.
  unfold socket_send, self_socket. unfold_prims. cbn.
  destruct (socket (self st)) as [h |]; run_os; reflexivity.
Qed.

(** The loop of [_raw_write], one iteration unfolded. *)
Lemma raw_write_loop_step data totalsent st :
  _raw_write_loop os data totalsent st =
  if (totalsent <? List.length data)%nat then
    match socket_send os (skipn totalsent data) st with
    | Out (Raised e) st1 ev1 => Out (Raised e) st1 ev1
    | Out (Returned O) st1 ev1 =>
        Out (Raised (ExcDetails RuntimeError
                       (details_of "socket connection broken" (self st1))))
            st1 (ev1 ++ [])
    | Out (Returned (S n)) st1 ev1 =>
        Out (value (_raw_write_loop os data (totalsent + S n) st1))
            (post (_raw_write_loop os data (totalsent + S n) st1))
            (ev1 ++ emitted (_raw_write_loop os data (totalsent + S n) st1))
    end
  else Out (Returned tt) st [].
Proof.
  simp _raw_write_loop.
  destruct (lt_dec totalsent (List.length data)),
    (Nat.ltb_spec totalsent (List.length data));
    try lia; simp _raw_write_loop; [| reflexivity].
  destruct (socket_send os (skipn totalsent data) st) as [[[| n] | e] st1 ev1];
    simp _raw_write_loop; reflexivity.
Qed.

(** On a transport that takes positive parts, the loop of [_raw_write]
    returns after sends of the successive rests of [data] whose sizes add
    up to what was left to send. *)
Lemma raw_write_loop_complete data h :
  partial_chunks os ->
  forall k totalsent st,
    (List.length data - totalsent)%nat = k ->
    (totalsent <= List.length data)%nat ->
    socket (self st) = Some h ->
    exists chunks,
      value (_raw_write_loop os data totalsent st) = Returned tt /\
      emitted (_raw_write_loop os data totalsent st) =
        send_events h data totalsent chunks /\
      Forall (fun n => (0 < n)%nat) chunks /\
      (totalsent + list_sum chunks)%nat = List.length data.
Proof.
  intros Hsend k. induction k as [k IH] using lt_wf_ind.
  intros totalsent st Hk Hle Hs.
  rewrite raw_write_loop_step.
  destruct (Nat.ltb_spec totalsent (List.length data)) as [Hlt | Hge].
  - rewrite socket_send_eq, Hs.
    destruct (Hsend h (skipn totalsent data) (world st))
      as (n & w' & Heq & Hn).
    { intros Hnil. apply (f_equal (@List.length _)) in Hnil.
      rewrite length_skipn in Hnil. cbn in Hnil. lia. }
    rewrite length_skipn in Hn. rewrite Heq.
    destruct n as [| n]; [lia |]. cbn [value post emitted].
    destruct (IH (List.length data - (totalsent + S n))%nat ltac:(lia)
                (totalsent + S n)%nat
                (State (self st) w' (next_handle st)) eq_refl ltac:(lia) Hs)
      as (chunks & Hv & He & Hpos & Hsum).
    exists (S n :: chunks). rewrite Hv, He. cbn [send_events app].
    repeat split; auto.
    + constructor; [lia | exact Hpos].
    + change (list_sum (S n :: chunks)) with (S n + list_sum chunks)%nat. lia.
  - exists []. cbn. repeat split; auto. lia.
Qed.

(** A [send] that takes nothing ends the loop of [_raw_write] with a
    [RuntimeError]; it was given a rest of [data] that is not empty. *)
Lemma raw_write_loop_zero_send data h d :
  forall k totalsent st,
    (List.length data - totalsent)%nat = k ->
    In (EvSend h d 0) (emitted (_raw_write_loop os data totalsent st)) ->
    value (_raw_write_loop os data totalsent st) =
      Raised (ExcDetails RuntimeError
                (details_of "socket connection broken" (self st))) /\
    d <> [].
Proof.
  intros k. induction k as [k IH] using lt_wf_ind.
  intros totalsent st Hk. rewrite raw_write_loop_step.
  destruct (Nat.ltb_spec totalsent (List.length data)) as [Hlt | Hge];
    [| intros []].
  rewrite socket_send_eq.
  destruct (socket (self st)) as [h0 |]; [| intros []].
  destruct (os_send os h0 (skipn totalsent data) (world st))
    as [[e | [| n]] w'] eqn:Heq; cbn [value post emitted app In self].
  - intros [[=] | []].
  - intros [[= _ <-] | []]. split; [reflexivity |].
    intros Hnil. apply (f_equal (@List.length _)) in Hnil.
    rewrite length_skipn in Hnil. cbn in Hnil. lia.
  - intros [[=] | Hin].
    apply (IH (List.length data - (totalsent + S n))%nat ltac:(lia)
             (totalsent + S n)%nat
             (State (self st) w' (next_handle st)) eq_refl) in Hin.
    exact Hin.
Qed.

(** *** What the methods keep *)

Lemma same_config_refl c : same_config c c.
Proof. repeat split. Qed.

Lemma same_config_trans c1 c2 c3 :
  same_config c1 c2 -> same_config c2 c3 -> same_config c1 c3.
Proof.
  unfold same_config. intros (? & ? & ? & ? & ? & ?) (? & ? & ? & ? & ? & ?).
  repeat split; congruence.
Qed.

Lemma same_config_eq c c' : c = c' -> same_config c c'.
Proof. intros <-. apply same_config_refl. Qed.

Lemma raw_release_config st :
  same_config (self st) (self (post (_raw_release os st))).
Proof.
  unfold _raw_release.
  destruct (socket (self st)) as [h |] eqn:Hs; exec; repeat split.
Qed.

Lemma raw_catch_config st :
  same_config (self st) (self (post (_raw_catch os st))).
Proof.
  unfold _raw_catch. exec; repeat split.
Qed.

Lemma reconnect_config st :
  same_config (self st) (self (post (_reconnect os st))).
Proof.
  unfold _reconnect, _raw_release, _raw_catch.
  destruct (socket (self st)) as [h |] eqn:Hs; exec; repeat split.
Qed.

Lemma poll_self w c st : self (post (poll os w c st)) = self st.
Proof.
  unfold poll, select_select, libcall, raise.
  destruct w, (socket c) as [h |]; run_os; reflexivity.
Qed.

Lemma ready_loop_config w range : forall st,
  same_config (self st) (self (post (ready_loop os w range st))).
Proof.
  induction range as [| x range IH]; intros st; [apply same_config_refl |].
  cbn [ready_loop]. unfold bind, get_self. cbn [value post emitted app].
  pose proof (poll_self w (self st) st) as Hp.
  destruct (poll os w (self st) st) as [[rs | e] st0 ev0];
    cbn [value post emitted] in *; [| now apply same_config_eq].
  destruct (negb (is_empty (pick w rs))); cbn [value post emitted ret];
    [now apply same_config_eq |].
  pose proof (reconnect_config st0) as Hr.
  rewrite Hp in Hr.
  destruct (_reconnect os st0) as [[[] | e] st1 ev1];
    cbn [value post emitted] in *; [| exact Hr].
  eapply same_config_trans; [exact Hr | apply IH].
Qed.

Lemma assert_ready_config w st :
  same_config (self st) (self (post (assert_ready os w st))).
Proof.
  destruct (socket (self st)) as [h |] eqn:Hs.
  - rewrite (assert_ready_connected _ _ _ Hs). apply ready_loop_config.
  - rewrite (assert_ready_disconnected _ _ Hs).
    pose proof (reconnect_config st) as Hr.
    destruct (_reconnect os st) as [[[] | e] st1 ev1];
      cbn [value post emitted] in *; [| exact Hr].
    eapply same_config_trans; [exact Hr | apply ready_loop_config].
Qed.

(** The loop of [_raw_write] assigns no attribute at all. *)
Lemma raw_write_loop_self data : forall k totalsent st,
  (List.length data - totalsent)%nat = k ->
  self (post (_raw_write_loop os data totalsent st)) = self st.
Proof.
  intros k. induction k as [k IH] using lt_wf_ind.
  intros totalsent st Hk. rewrite raw_write_loop_step.
  destruct (Nat.ltb_spec totalsent (List.length data)) as [Hlt | Hge];
    [| reflexivity].
  rewrite socket_send_eq.
  destruct (socket (self st)) as [h0 |]; [| reflexivity].
  destruct (os_send os h0 (skipn totalsent data) (world st))
    as [[e | [| n]] w']; cbn [value post emitted self]; try reflexivity.
  now rewrite (IH (List.length data - (totalsent + S n))%nat ltac:(lia)
                 (totalsent + S n)%nat _ eq_refl).
Qed.

Lemma raw_write_config data st :
  same_config (self st) (self (post (_raw_write os data st))).
Proof.
  unfold _raw_write, bind.
  pose proof (assert_ready_config true st) as Ha.
  rewrite <- assert_writable_eq in Ha.
  destruct (_assert_writable os st) as [[[] | e] st1 ev1];
    cbn [value post emitted] in *; [| exact Ha].
  now rewrite (raw_write_loop_self data _ 0%nat st1 eq_refl).
Qed.

(** *** A socket whose [shutdown] raises *)

Lemma raw_release_stuck st h :
  socket (self st) = Some h ->
  shutdown_raises os h ->
  exists e w',
    _raw_release os st =
    Out (Raised (lib_exn e)) (State (self st) w' (next_handle st)) [EvError e].
Proof.
  intros Hs Hsh. destruct (Hsh (world st)) as (e & w' & He).
  exists e, w'. unfold _raw_release. unfold_prims.
  cbn. rewrite Hs. cbn. rewrite He. reflexivity.
Qed.

Lemma reconnect_stuck st h :
  socket (self st) = Some h ->
  shutdown_raises os h ->
  exists e w',
    _reconnect os st =
    Out (Raised (lib_exn e)) (State (self st) w' (next_handle st))
        [EvReconnect; EvError e].
Proof.
  intros Hs Hsh.
  destruct (raw_release_stuck st h Hs Hsh) as (e & w' & He).
  exists e, w'. unfold _reconnect, bind at 1, emit.
  cbn [value post emitted]. unfold bind. rewrite He. reflexivity.
Qed.

Lemma ready_loop_stuck w h range st :
  socket (self st) = Some h ->
  shutdown_raises os h ->
  self (post (ready_loop os w range st)) = self st.
Proof.
  intros Hs Hsh. destruct range as [| x range]; [reflexivity |].
  cbn [ready_loop]. unfold bind at 1 2, get_self.
  cbn [value post emitted app].
  pose proof (poll_self w (self st) st) as Hp.
  destruct (poll os w (self st) st) as [[rs | e] st0 ev0];
    cbn [value post emitted] in *; [| exact Hp].
  destruct (negb (is_empty (pick w rs))); cbn [value post emitted ret];
    [exact Hp |].
  rewrite <- Hp in Hs.
  destruct (reconnect_stuck st0 h Hs Hsh) as (e & w' & He).
  unfold bind. rewrite He. cbn [post self]. exact Hp.
Qed.

Lemma assert_ready_stuck w h st :
  socket (self st) = Some h ->
  shutdown_raises os h ->
  self (post (assert_ready os w st)) = self st.
Proof.
  intros Hs Hsh. rewrite (assert_ready_connected _ _ _ Hs).
  cbn [post]. now apply ready_loop_stuck with (h := h).
Qed.

(** *** A readiness check that returns *)

Lemma select_event_set_socket w s c h rs :
  select_event w (set_socket s c) h rs = select_event w c h rs.
Proof. destruct w; reflexivity. Qed.

Lemma reconnect_events_set_socket s c h h' :
  reconnect_events (set_socket s c) h h' = reconnect_events c h h'.
Proof. reflexivity. Qed.

(** It ends with a poll that found the socket the connection holds
    ready; every earlier poll was followed by a reconnect. *)
Lemma ready_loop_returns_ready w range : forall st,
  value (ready_loop os w range st) = Returned tt ->
  exists pre h rs,
    emitted (ready_loop os w range st) =
      pre ++ [select_event w (self st) h rs] /\
    pick w rs <> [] /\
    socket (self (post (ready_loop os w range st))) = Some h /\
    (reconnects (emitted (ready_loop os w range st)) < List.length range)%nat /\
    (reconnects (emitted (ready_loop os w range st)) = 0%nat ->
     socket (self st) = Some h).
Proof.
  induction range as [| x range IH]; intros st; [discriminate |].
  cbn [ready_loop]. unfold bind, get_self. cbn [value post emitted app].
  destruct (poll os w (self st) st) as [[rs | e] st0 ev0] eqn:Hp;
    cbn [value post emitted]; [| discriminate].
  destruct (poll_returns _ _ _ _ _ Hp) as (h & Hs & Hself & Hnext & ->).
  destruct (pick w rs) as [| y ys] eqn:Hpick; cbn [is_empty negb].
  - destruct (_reconnect os st0) as [[[] | e] st1 ev1] eqn:Hr;
      cbn [value post emitted]; [| discriminate].
    destruct (reconnect_returns _ _ _ Hr) as (Hself1 & Hnext1 & ->).
    intros Hv.
    destruct (IH st1 Hv) as (pre & h' & rs' & He & Hne & Hsock & Hcount & _).
    exists (select_event w (self st) h rs ::
            reconnect_events (self st0) (socket (self st0)) (next_handle st0)
            ++ pre), h', rs'.
    rewrite He, Hself1, Hself, select_event_set_socket.
    split; [cbn [app]; now rewrite <- app_assoc |].
    split; [exact Hne |]. split; [exact Hsock |].
    cbn [app]. rewrite reconnects_select_event, !reconnects_app,
      reconnects_reconnect_events.
    rewrite He, reconnects_app in Hcount. cbn [List.length].
    rewrite reconnects_select_event in Hcount |- *.
    split; [lia | intros; lia].
  - intros _. exists [], h, rs. cbn [ret value post emitted app].
    rewrite Hself, Hpick. cbn [List.length].
    rewrite reconnects_select_event. cbn [reconnects].
    repeat split; auto; [discriminate | lia].
Qed.

(** *** A [_raw_release] that returns *)

Lemma raw_release_returns st :
  value (_raw_release os st) = Returned tt ->
  socket (self (post (_raw_release os st))) = None.
Proof.
  unfold _raw_release.
  destruct (socket (self st)) as [h |] eqn:Hs; exec;
    try discriminate; auto.
Qed.

Lemma raw_release_disconnected st :
  socket (self st) = None ->
  _raw_release os st = Out (Returned tt) st [].
Proof.
  intros Hs. unfold _raw_release. unfold_prims. cbn. now rewrite Hs.
Qed.

(** *** A transport that is never ready *)

Lemma reconnect_succeeds st :
  never_ready os ->
  value (_reconnect os st) = Returned tt.
Proof.
  intros (_ & Hsock & Hopt & Hconn & Hshut & Hclose).
  unfold _reconnect, _raw_release, _raw_catch.
  destruct (socket (self st)) as [h |] eqn:Hs; exec; try reflexivity;
    match goal with
    | E : os_socket os ?a ?b ?w = (inl _, _) |- _ =>
        destruct (Hsock a b w) as (? & ?); congruence
    | E : os_setsockopt os ?a ?w = (inl _, _) |- _ =>
        destruct (Hopt a w) as (? & ?); congruence
    | E : os_connect os ?a ?b ?c ?w = (inl _, _) |- _ =>
        destruct (Hconn a b c w) as (? & ?); congruence
    | E : os_shutdown os ?a ?w = (inl _, _) |- _ =>
        destruct (Hshut a w) as (? & ?); congruence
    | E : os_close os ?a ?w = (inl _, _) |- _ =>
        destruct (Hclose a w) as (? & ?); congruence
    end.
Qed.

Lemma poll_never_ready w st h :
  never_ready os ->
  socket (self st) = Some h ->
  exists rs st0,
    poll os w (self st) st =
      Out (Returned rs) st0 [select_event w (self st) h rs] /\
    pick w rs = [] /\
    self st0 = self st.
Proof.
  intros (Hsel & _) Hs.
  unfold poll, select_select, select_event, libcall. rewrite Hs.
  destruct w; cbn;
    match goal with
    | |- context [os_select os ?a ?b ?c ?t ?wd] =>
        destruct (Hsel a b c t wd) as (x' & w' & E); rewrite E
    end;
    eexists _, _; repeat split.
Qed.

Lemma ready_loop_never_ready w range : forall st h,
  never_ready os ->
  socket (self st) = Some h ->
  exists det,
    value (ready_loop os w range st) = Raised (ExcDetails (not_ready w) det).
Proof.
  induction range as [| x range IH]; intros st h Hn Hs; [eexists; reflexivity |].
  cbn [ready_loop]. unfold bind, get_self. cbn [value post emitted app].
  destruct (poll_never_ready w st h Hn Hs) as (rs & st0 & -> & -> & Hself).
  cbn [is_empty negb value post emitted].
  pose proof (reconnect_succeeds st0 Hn) as Hv.
  destruct (_reconnect os st0) as [[[] | e] st1 ev1] eqn:Hr;
    cbn [value post emitted] in *; [| discriminate].
  destruct (reconnect_returns _ _ _ Hr) as (Hself1 & _ & _).
  apply (IH st1 (next_handle st0) Hn). now rewrite Hself1.
Qed.

Lemma assert_ready_never_ready w st :
  never_ready os ->
  exists det,
    value (assert_ready os w st) = Raised (ExcDetails (not_ready w) det).
Proof.
  intros Hn. destruct (socket (self st)) as [h |] eqn:Hs.
  - rewrite (assert_ready_connected _ _ _ Hs). cbn [value].
    now apply ready_loop_never_ready with (h := h).
  - rewrite (assert_ready_disconnected _ _ Hs).
    pose proof (reconnect_succeeds st Hn) as Hv.
    destruct (_reconnect os st) as [[[] | e] st1 ev1] eqn:Hr;
      cbn [value post emitted] in *; [| discriminate].
    destruct (reconnect_returns _ _ _ Hr) as (Hself1 & _ & _).
    apply ready_loop_never_ready with (h := next_handle st); [exact Hn |].
    now rewrite Hself1.
Qed.
End ConnectionFacts.

(** C2: a readiness check that raises its failure has made two reconnects
    when it started connected, one after each of the two polls, and three
    when it started disconnected; the failure holds the host, the port,
    the address family and the socket type of the connection. *)
Theorem not_ready_after_two_reconnects {World : Type} (os : SocketAPI World)
    (w : bool) (st : state World) (det : details) :
  value (readiness_check os w st) = Raised (ExcDetails (not_ready w) det) ->
  reconnects (emitted (readiness_check os w st)) =
    match socket (self st) with None => 3%nat | Some _ => 2%nat end /\
  d_host det = host_name (self st) /\
  d_port det = port_number (self st) /\
  d_family det = address_family (self st) /\
  d_type det = socket_type (self st).
Proof.
  rewrite readiness_check_eq. intros H.
  destruct (assert_ready_details os _ _ _ _ H)
    as (pre & rs & n & _ & -> & _ & _ & _ & _ & Hn).
  rewrite Hn. repeat split.
Qed.

Lemma not_ready_after_two_reconnects_witness :
  reconnects (emitted (_assert_writable sim_os stalled)) = 2%nat /\
  reconnects (emitted (_assert_readable sim_os stalled)) = 2%nat /\
  value (_assert_writable sim_os stalled) =
    Raised (ExcDetails NonWritableSocketError
              (Details "cannot read from socket" (Some 2%nat)
                 "127.0.0.1" 9100 AF_INET SOCK_STREAM)).
Proof.
  split; [| split].
  - apply (not_ready_after_two_reconnects sim_os true stalled
             (Details "cannot read from socket" (Some 2%nat)
                "127.0.0.1" 9100 AF_INET SOCK_STREAM)).
    reflexivity.
  - apply (not_ready_after_two_reconnects sim_os false stalled
             (Details "cannot read from socket" (Some 2%nat)
                "127.0.0.1" 9100 AF_INET SOCK_STREAM)).
    reflexivity.
  - reflexivity.
Defined.

(** C10: when a readiness check raises its failure, the last events are
    the poll that found the socket [h] not ready and a reconnect that
    shut down and closed [h] and created and connected a new socket
    object [h']; the connection holds [h'], which is not [h], and the
    failure names [h']. *)
Theorem not_ready_failure_holds_new_socket {World : Type}
    (os : SocketAPI World) (w : bool) (st : state World) (det : details) :
  value (readiness_check os w st) = Raised (ExcDetails (not_ready w) det) ->
  exists pre rs h h',
    emitted (readiness_check os w st) =
      pre ++ select_event w (self st) h rs ::
             reconnect_events (self st) (Some h) h' /\
    pick w rs = [] /\
    socket (self (post (readiness_check os w st))) = Some h' /\
    h' <> h /\
    next_handle (post (readiness_check os w st)) = S h' /\
    d_socket det = Some h'.
Proof.
  rewrite readiness_check_eq. intros H.
  destruct (assert_ready_details os _ _ _ _ H)
    as (pre & rs & n & _ & -> & Hself & Hnext & Hev & Hpick & _).
  exists pre, rs, n, (S n).
  rewrite Hself, Hnext, Hev. repeat split; auto.
Qed.

Lemma not_ready_failure_holds_new_socket_witness :
  exists pre rs h h',
    emitted (_assert_readable sim_os stalled) =
      pre ++ select_event false (self stalled) h rs ::
             reconnect_events (self stalled) (Some h) h' /\
    pick false rs = [] /\
    socket (self (post (_assert_readable sim_os stalled))) = Some h' /\
    h' <> h /\
    next_handle (post (_assert_readable sim_os stalled)) = S h' /\
    d_socket (Details "cannot read from socket" (Some 2%nat)
                "127.0.0.1" 9100 AF_INET SOCK_STREAM) = Some h'.
Proof.
  apply (not_ready_failure_holds_new_socket sim_os false stalled).
  reflexivity.
Defined.

(** C6: on a transport whose [send] takes a positive part of what it is
    given, a [_raw_write] whose readiness check returns, returns; its
    sends are of the successive rests of [data], each takes at least one
    byte, and together they take [len(data)] bytes. *)
Theorem raw_write_sends_everything {World : Type} (os : SocketAPI World)
    (data : bytes) (st : state World) :
  partial_chunks os ->
  value (_assert_writable os st) = Returned tt ->
  exists h chunks,
    socket (self (post (_assert_writable os st))) = Some h /\
    value (_raw_write os data st) = Returned tt /\
    emitted (_raw_write os data st) =
      emitted (_assert_writable os st) ++ send_events h data 0 chunks /\
    Forall (fun n => (0 < n)%nat) chunks /\
    list_sum chunks = List.length data.
Proof.
  intros Hsend Hw.
  assert (Hr : value (assert_ready os true st) = Returned tt)
    by now rewrite <- assert_writable_eq.
  apply assert_ready_returns in Hr. destruct Hr as (h & Hs).
  rewrite <- assert_writable_eq in Hs.
  unfold _raw_write, bind.
  destruct (_assert_writable os st) as [[[] | e] st1 ev1];
    cbn [value post emitted] in *; [| discriminate].
  destruct (raw_write_loop_complete os data h Hsend _ 0%nat st1 eq_refl
              (Nat.le_0_l _) Hs) as (chunks & Hv & He & Hpos & Hsum).
  exists h, chunks. rewrite Hv, He. auto.
Qed.

Lemma trickle_partial_chunks : partial_chunks trickle_os.
Proof.
  intros h d w Hd. cbn. eexists _, _. split; [reflexivity |].
  destruct d; [congruence | cbn [List.length]]. lia.
Qed.

Lemma raw_write_sends_everything_witness :
  exists h chunks,
    socket (self (post (_assert_writable trickle_os (State printer 0%nat 0%nat)))) =
      Some h /\
    value (_raw_write trickle_os (abc ++ abc) (State printer 0%nat 0%nat)) =
      Returned tt /\
    emitted (_raw_write trickle_os (abc ++ abc) (State printer 0%nat 0%nat)) =
      emitted (_assert_writable trickle_os (State printer 0%nat 0%nat)) ++
      send_events h (abc ++ abc) 0 chunks /\
    Forall (fun n => (0 < n)%nat) chunks /\
    list_sum chunks = List.length (abc ++ abc).
Proof.
  apply (raw_write_sends_everything trickle_os (abc ++ abc)
           (State printer 0%nat 0%nat) trickle_partial_chunks).
  reflexivity.
Defined.

(** C1, as the spec has it, fails: after a [send] that takes nothing the
    exception of [_raw_write] is no instance of the retryable classes, and
    [write] calls [_raw_write] once and raises it. *)
Lemma broken_connection_is_not_retried :
  In (EvSend 0%nat [Byte.x62; Byte.x63] 0)
     (emitted (_raw_write sim_os abc broken)) /\
  exists e,
    value (_raw_write sim_os abc broken) = Raised e /\
    isinstance e (Settings.exceptions RetrySettings) = false /\
    retval (write sim_os abc (broken, [])) = Raised e /\
    log (write sim_os abc (broken, [])) = [Call (Some e)].
Proof.
  split; [vm_compute; tauto |].
  eexists. repeat split.
Qed.

(** C1, amended: a [send] that takes nothing was given a rest of the data
    that is not empty, and makes [_raw_write] raise a [RuntimeError] with
    the message and the details of the connection; a [RuntimeError] is no
    instance of the retryable classes of [RetrySettings], so [write]
    calls [_raw_write] once, does not sleep, and raises it. *)
Theorem zero_send_raises_runtime_error {World : Type} (os : SocketAPI World)
    (data : bytes) (st : state World) (h : handle) (d : bytes) :
  In (EvSend h d 0) (emitted (_raw_write os data st)) ->
  exists det,
    value (_raw_write os data st) = Raised (ExcDetails RuntimeError det) /\
    det = details_of "socket connection broken"
            (self (post (_assert_writable os st))) /\
    d <> [] /\
    isinstance (ExcDetails RuntimeError det)
      (Settings.exceptions RetrySettings) = false /\
    forall tr,
      write os data (st, tr) =
      Run (Raised (ExcDetails RuntimeError det))
          (post (_raw_write os data st), tr ++ emitted (_raw_write os data st))
          3 [Call (Some (ExcDetails RuntimeError det))].
Proof.
  intros Hin.
  assert (Hv : value (_raw_write os data st) =
               Raised (ExcDetails RuntimeError
                         (details_of "socket connection broken"
                            (self (post (_assert_writable os st))))) /\
               d <> []).
  { pose proof (assert_ready_no_send os true st) as Hno.
    rewrite <- assert_writable_eq in Hno.
    unfold _raw_write, bind in Hin |- *.
    destruct (_assert_writable os st) as [[[] | e] st1 ev1];
      cbn [value post emitted] in *.
    - apply in_app_or in Hin. destruct Hin as [Hin | Hin].
      + rewrite Forall_forall in Hno. destruct (Hno _ Hin I).
      + now apply (raw_write_loop_zero_send os data h d _ 0%nat st1 eq_refl).
    - rewrite Forall_forall in Hno. destruct (Hno _ Hin I). }
  destruct Hv as (Hv & Hd).
  eexists. split; [exact Hv |]. split; [reflexivity |].
  split; [exact Hd |]. split; [reflexivity |].
  intros tr. unfold write, outter, inner.
  rewrite inner_loop_step. unfold method. rewrite Hv. reflexivity.
Qed.

Lemma zero_send_raises_runtime_error_witness :
  exists det,
    value (_raw_write sim_os abc broken) = Raised (ExcDetails RuntimeError det) /\
    det = details_of "socket connection broken"
            (self (post (_assert_writable sim_os broken))) /\
    [Byte.x62; Byte.x63] <> [] /\
    isinstance (ExcDetails RuntimeError det)
      (Settings.exceptions RetrySettings) = false /\
    forall tr,
      write sim_os abc (broken, tr) =
      Run (Raised (ExcDetails RuntimeError det))
          (post (_raw_write sim_os abc broken),
           tr ++ emitted (_raw_write sim_os abc broken))
          3 [Call (Some (ExcDetails RuntimeError det))].
Proof.
  apply (zero_send_raises_runtime_error sim_os abc broken 0%nat).
  vm_compute. tauto.
Defined.

(** [_raw_read], by the outcome of its readiness check and of [recv]. *)
Lemma raw_read_eq {World : Type} (os : SocketAPI World) (st : state World) :
  _raw_read os st =
  match _assert_readable os st with
  | Out (Raised _) st1 ev1 => Out (Returned []) st1 ev1
  | Out (Returned _) st1 ev1 =>
      match socket (self st1) with
      | None => Out (Returned []) st1 (ev1 ++ [])
      | Some h =>
          match os_recv os h (read_buffer_size (self st1)) (world st1) with
          | (inl e, w) =>
              Out (Returned []) (State (self st1) w (next_handle st1))
                  (ev1 ++ [EvError e])
          | (inr data, w) =>
              Out (Returned data) (State (self st1) w (next_handle st1))
                  (ev1 ++ [EvRecv h (read_buffer_size (self st1)) data])
          end
      end
  end.
Proof.
  unfold _raw_read, bind.
  destruct (_assert_readable os st) as [[[] | e] st1 ev1]; [| reflexivity].
  unfold self_socket, bind, get_self, libcall, ret, raise.
  cbn [value post emitted app].
  destruct (socket (self st1)) as [h |]; cbn [value post emitted app];
    [| reflexivity].
  destruct (os_recv os h (read_buffer_size (self st1)) (world st1))
    as [[e | data] w]; reflexivity.
Qed.

(** C7: [_raw_read] never raises.  When its readiness check raises it
    returns the empty string; when the check returns it makes one [recv]
    of [read_buffer_size] bytes on the socket and returns what that
    delivers, or the empty string when [recv] raises. *)
Theorem raw_read_never_raises {World : Type} (os : SocketAPI World)
    (st : state World) :
  (exists data, value (_raw_read os st) = Returned data) /\
  (forall e,
     value (_assert_readable os st) = Raised e ->
     value (_raw_read os st) = Returned []) /\
  (forall h,
     value (_assert_readable os st) = Returned tt ->
     socket (self (post (_assert_readable os st))) = Some h ->
     match os_recv os h
             (read_buffer_size (self (post (_assert_readable os st))))
             (world (post (_assert_readable os st))) with
     | (inr data, _) =>
         value (_raw_read os st) = Returned data /\
         emitted (_raw_read os st) =
           emitted (_assert_readable os st) ++
           [EvRecv h (read_buffer_size (self (post (_assert_readable os st))))
              data]
     | (inl e, _) =>
         value (_raw_read os st) = Returned [] /\
         emitted (_raw_read os st) =
           emitted (_assert_readable os st) ++ [EvError e]
     end).
Proof.
  rewrite raw_read_eq.
  destruct (_assert_readable os st) as [[[] | e] st1 ev1];
    cbn [value post emitted].
  - destruct (socket (self st1)) as [h |] eqn:Hs; cbn [value post emitted].
    + destruct (os_recv os h (read_buffer_size (self st1)) (world st1))
        as [[e | data] w] eqn:Hrecv; cbn [value post emitted];
        (split; [eauto |]); (split; [discriminate |]);
        intros h' _ [= <-]; rewrite Hrecv; auto.
    + split; [eauto |]. split; [intros e [=] | intros h _ [=]].
  - split; [eauto |]. split; [reflexivity | intros h [=]].
Qed.

(** C9, as the spec has it, fails: when [shutdown] raises, the exception
    leaves [__del__], [close] is not called and the connection keeps its
    socket. *)
Lemma del_lets_a_release_error_escape :
  value (__del__ sim_os unplugged) =
    Raised (Exc socket_error "Transport endpoint is not connected") /\
  socket (self (post (__del__ sim_os unplugged))) = Some 0%nat /\
  emitted (__del__ sim_os unplugged) =
    [EvError (LibErr socket_error "Transport endpoint is not connected")].
Proof. repeat split. Qed.

(** C9, amended: [__del__] calls [_raw_release] whatever the state.  With
    no socket it does nothing; with a socket it shuts it down, closes it
    and clears the attribute when both calls return.  It catches nothing:
    what [shutdown] or [close] raises leaves [__del__], the attribute
    still set, and after a [shutdown] that raised without a [close].
    Only Python, which discards what a finalizer raises, keeps that
    exception from the program. *)
Theorem del_releases_and_catches_nothing {World : Type}
    (os : SocketAPI World) (st : state World) :
  __del__ os st =
    match socket (self st) with
    | None => Out (Returned tt) st []
    | Some h =>
        match os_shutdown os h (world st) with
        | (inl e, w) =>
            Out (Raised (lib_exn e)) (State (self st) w (next_handle st))
                [EvError e]
        | (inr _, w) =>
            match os_close os h w with
            | (inl e, w') =>
                Out (Raised (lib_exn e)) (State (self st) w' (next_handle st))
                    [EvShutdown h; EvError e]
            | (inr _, w') =>
                Out (Returned tt)
                    (State (set_socket None (self st)) w' (next_handle st))
                    [EvShutdown h; EvClose h]
            end
        end
    end /\
  value (finalize os st) = Returned tt /\
  post (finalize os st) = post (__del__ os st).
Proof.
  split; [| split; reflexivity].
  unfold __del__, _raw_release, bind, get_self, libcall, assign_socket, ret.
  cbn [value post emitted app].
  destruct (socket (self st)) as [h |]; [| reflexivity].
  destruct (os_shutdown os h (world st)) as [[e | []] w];
    cbn [value post emitted app self world next_handle]; [reflexivity |].
  destruct (os_close os h w) as [[e | []] w']; reflexivity.
Qed.

(** ** Further properties of the retry loop *)

(** X1: a decorated function with settings that [backoff] accepts calls
    the wrapped function at least once; every call but the last raises a
    retryable exception, and the run ends with what the last call
    returned or raised, in the state that call left.  It never falls out
    of the loop to return [None]. *)
Theorem run_is_its_last_call {St A : Type}
    (settings : Settings.t) (wrap : decorator)
    (sleep : Z -> St -> St) (f : St -> result A * St) (s : St) :
  backoff settings = inr wrap ->
  (1 <= calls (log (wrap St A sleep f s)))%nat /\
  (forall j,
     (j < calls (log (wrap St A sleep f s)) - 1)%nat ->
     fails_retryably settings f
       (attempt_state settings sleep f j (Settings.delay settings) s) = true) /\
  retval (wrap St A sleep f s) =
    match fst (f (attempt_state settings sleep f
                    (calls (log (wrap St A sleep f s)) - 1)
                    (Settings.delay settings) s)) with
    | Returned v => Returned (Some v)
    | Raised e => Raised e
    end /\
  final (wrap St A sleep f s) =
    snd (f (attempt_state settings sleep f
              (calls (log (wrap St A sleep f s)) - 1)
              (Settings.delay settings) s)) /\
  retval (wrap St A sleep f s) <> Returned None.
Proof.
  intros Hb. apply backoff_inr in Hb. destruct Hb as (-> & Hm & _).
  unfold outter, inner.
  destruct (loop_trace settings sleep f _ (Settings.max_tries settings)
              (Settings.delay settings) s eq_refl Hm) as (Hfail & Hret & Hfin).
  split; [now apply calls_positive |].
  split; [exact Hfail |]. split; [exact Hret |]. split; [exact Hfin |].
  rewrite Hret. destruct (fst _); discriminate.
Qed.

Lemma run_is_its_last_call_witness :
  (1 <= calls (log (outter RetrySettings no_sleep
                      (flaky (Exc socket_error "reset") 1) 0%nat)))%nat /\
  retval (outter RetrySettings no_sleep
            (flaky (Exc socket_error "reset") 1) 0%nat) = Returned (Some 1%nat) /\
  final (outter RetrySettings no_sleep
           (flaky (Exc socket_error "reset") 1) 0%nat) = 2%nat.
Proof.
  pose proof (run_is_its_last_call RetrySettings (@outter RetrySettings)
                no_sleep (flaky (Exc socket_error "reset") 1) 0%nat eq_refl)
    as (H1 & _ & Hret & Hfin & _).
  split; [exact H1 |]. split; [exact Hret | exact Hfin].
Defined.

Lemma geometric_sum k : forall d b,
  (b - 1) * fold_right Z.add 0 (geometric d b k) = d * (b ^ Z.of_nat k - 1).
Proof.
  induction k as [| k IH]; intros d b.
  - cbn. ring.
  - rewrite geometric_S. cbn [fold_right].
    rewrite Z.mul_add_distr_l, IH, Nat2Z.inj_succ, Z.pow_succ_r by lia.
    ring.
Qed.

(** X2: the time a run sleeps in all is
    [delay * (backoff ^ k - 1) / (backoff - 1)] for its [k] retries, and
    so at most that of [max_tries - 1] retries. *)
Theorem total_sleep {St A : Type}
    (settings : Settings.t) (wrap : decorator)
    (sleep : Z -> St -> St) (f : St -> result A * St) (s : St) :
  backoff settings = inr wrap ->
  (Settings.backoff settings - 1) *
    fold_right Z.add 0 (sleeps (log (wrap St A sleep f s))) =
  Settings.delay settings *
    (Settings.backoff settings ^
       Z.of_nat (calls (log (wrap St A sleep f s)) - 1) - 1) /\
  (Settings.backoff settings - 1) *
    fold_right Z.add 0 (sleeps (log (wrap St A sleep f s))) <=
  Settings.delay settings *
    (Settings.backoff settings ^ (Settings.max_tries settings - 1) - 1).
Proof.
  intros Hb. apply backoff_inr in Hb. destruct Hb as (-> & Hm & Hd & Hbk).
  unfold outter, inner.
  rewrite (loop_sleeps settings sleep f _ _ _ _ eq_refl), geometric_sum.
  split; [reflexivity |].
  pose proof (calls_bounded settings sleep f _ (Settings.max_tries settings)
                (Settings.delay settings) s eq_refl) as Hc.
  apply Z.mul_le_mono_nonneg_l; [lia |].
  apply Z.sub_le_mono_r.
  apply Z.pow_le_mono_r; lia.
Qed.

Lemma total_sleep_witness :
  fold_right Z.add 0
    (sleeps (log (outter RetrySettings no_sleep
                    (flaky (Exc socket_error "reset") 5) 0%nat))) <= 9.
Proof.
  pose proof (total_sleep RetrySettings (@outter RetrySettings) no_sleep
                (flaky (Exc socket_error "reset") 5) 0%nat eq_refl)
    as (_ & H).
  change (Settings.backoff RetrySettings - 1) with 1 in H.
  rewrite Z.mul_1_l in H. exact H.
Defined.

(** ** Further properties of the connection *)

Lemma raw_read_returns {World : Type} (os : SocketAPI World) (st : state World) :
  exists data, value (_raw_read os st) = Returned data.
Proof.
  rewrite raw_read_eq.
  destruct (_assert_readable os st) as [[[] | e] st1 ev1];
    [| cbn [value]; eauto].
  destruct (socket (self st1)) as [h |]; [| cbn [value]; eauto].
  destruct (os_recv os h (read_buffer_size (self st1)) (world st1))
    as [[e | data] w]; cbn [value]; eauto.
Qed.

(** X3: [read] calls [_raw_read] once and returns what it returned: as
    [_raw_read] never raises, the retry loop around it never sleeps and
    never makes a second call. *)
Theorem read_never_retries {World : Type} (os : SocketAPI World)
    (st : state World) (tr : list event) :
  exists data,
    value (_raw_read os st) = Returned data /\
    read os (st, tr) =
    Run (Returned (Some data))
        (post (_raw_read os st), tr ++ emitted (_raw_read os st))
        3 [Call None].
Proof.
  destruct (raw_read_returns os st) as (data & Hv).
  exists data. split; [exact Hv |].
  unfold read, outter, inner. rewrite inner_loop_step.
  unfold method. rewrite Hv. reflexivity.
Qed.

Lemma raw_write_never_ready {World : Type} (os : SocketAPI World)
    (data : bytes) (st : state World) :
  never_ready os ->
  exists det,
    value (_raw_write os data st) =
    Raised (ExcDetails NonWritableSocketError det).
Proof.
  intros Hn.
  destruct (assert_ready_never_ready os true st Hn) as (det & Hv).
  rewrite <- assert_writable_eq in Hv.
  exists det. unfold _raw_write, bind.
  destruct (_assert_writable os st) as [[[] | e] st1 ev1];
    cbn [value] in *; [discriminate | exact Hv].
Qed.

(** X4: on a transport where connecting works and no poll ever finds the
    socket ready, [write] calls [_raw_write] three times, sleeps 3 and
    then 6 seconds between the calls, and raises the
    [NonWritableSocketError] of the third call. *)
Theorem write_gives_up_on_dead_peer {World : Type} (os : SocketAPI World)
    (data : bytes) (st : state World) (tr : list event) :
  never_ready os ->
  calls (log (write os data (st, tr))) = 3%nat /\
  sleeps (log (write os data (st, tr))) = [3; 6] /\
  mtries_left (write os data (st, tr)) = 0 /\
  exists det,
    retval (write os data (st, tr)) =
    Raised (ExcDetails NonWritableSocketError det).
Proof.
  intros Hn.
  assert (Hfail : forall s,
             exists det s',
               method (_raw_write os data) s =
               (Raised (ExcDetails NonWritableSocketError det), s')).
  { intros [st' tr']. destruct (raw_write_never_ready os data st' Hn) as (det & Hv).
    unfold method. rewrite Hv. eauto. }
  unfold write, outter, inner.
  destruct (loop_all_fail RetrySettings (time_sleep os)
              (method (_raw_write os data)) 2 3 3 (st, tr) eq_refl)
    as (e & s' & Hf & Hrun & Hc).
  { intros j _. unfold fails_retryably.
    destruct (Hfail (attempt_state RetrySettings (time_sleep os)
                       (method (_raw_write os data)) j 3 (st, tr)))
      as (det & s1 & ->).
    reflexivity. }
  change (Settings.max_tries RetrySettings) with 3.
  change (Settings.delay RetrySettings) with 3.
  split; [exact Hc |].
  split; [rewrite (loop_sleeps RetrySettings _ _ _ 3 3 _ eq_refl), Hc;
          reflexivity |].
  rewrite Hrun. cbn [mtries_left retval]. split; [reflexivity |].
  destruct (Hfail (attempt_state RetrySettings (time_sleep os)
                     (method (_raw_write os data)) 2 3 (st, tr)))
    as (det & s1 & Hd).
  rewrite Hd in Hf. injection Hf as <- _. eauto.
Qed.

Lemma dead_os_never_ready : never_ready dead_os.
Proof. repeat split; intros; cbn; eauto. Qed.

Lemma write_gives_up_on_dead_peer_witness :
  calls (log (write dead_os abc (State printer tt 0%nat, []))) = 3%nat /\
  sleeps (log (write dead_os abc (State printer tt 0%nat, []))) = [3; 6] /\
  mtries_left (write dead_os abc (State printer tt 0%nat, [])) = 0 /\
  exists det,
    retval (write dead_os abc (State printer tt 0%nat, [])) =
    Raised (ExcDetails NonWritableSocketError det).
Proof.
  apply (write_gives_up_on_dead_peer dead_os abc (State printer tt 0%nat) []
           dead_os_never_ready).
Defined.

(** X5: after a [release] that returns the connection holds no socket,
    and a second [release] calls [_raw_release] once, which makes no
    library call, and returns without sleeping. *)
Theorem release_twice {World : Type} (os : SocketAPI World)
    (st : state World) (tr : list event) (v : option unit) :
  retval (release os (st, tr)) = Returned v ->
  socket (self (fst (final (release os (st, tr))))) = None /\
  release os (final (release os (st, tr))) =
  Run (Returned (Some tt)) (final (release os (st, tr))) 3 [Call None].
Proof.
  unfold release, outter, inner.
  destruct (loop_trace RetrySettings (time_sleep os) (method (_raw_release os))
              _ 3 3 (st, tr) eq_refl ltac:(lia)) as (_ & Hret & Hfin).
  change (Settings.max_tries RetrySettings) with 3.
  change (Settings.delay RetrySettings) with 3.
  rewrite Hret, Hfin.
  destruct (attempt_state _ _ _ _ _ _) as [st0 tr0].
  unfold method at 1 2 3. cbn [fst snd].
  destruct (value (_raw_release os st0)) as [[] | e] eqn:Hv; [| discriminate].
  intros _.
  pose proof (raw_release_returns os st0 Hv) as Hnone.
  split; [exact Hnone |].
  rewrite inner_loop_step. unfold method. cbn [snd].
  rewrite (raw_release_disconnected os _ Hnone).
  cbn [value post emitted]. now rewrite app_nil_r.
Qed.

Lemma release_twice_witness :
  socket (self (fst (final (release sim_os (stalled, []))))) = None /\
  release sim_os (final (release sim_os (stalled, []))) =
  Run (Returned (Some tt)) (final (release sim_os (stalled, []))) 3 [Call None].
Proof.
  apply (release_twice sim_os stalled [] (Some tt)). reflexivity.
Defined.

Lemma raw_read_config {World : Type} (os : SocketAPI World) (st : state World) :
  same_config (self st) (self (post (_raw_read os st))).
Proof.
  rewrite raw_read_eq.
  pose proof (assert_ready_config os false st) as Ha.
  rewrite <- assert_readable_eq in Ha.
  destruct (_assert_readable os st) as [[[] | e] st1 ev1];
    cbn [value post emitted] in *; [| exact Ha].
  destruct (socket (self st1)) as [h |]; [| exact Ha].
  destruct (os_recv os h (read_buffer_size (self st1)) (world st1))
    as [[e | data] w]; exact Ha.
Qed.

Lemma decorated_config {World A : Type} (os : SocketAPI World)
    (m : M World A) (st : state World) (tr : list event) :
  (forall st', same_config (self st') (self (post (m st')))) ->
  same_config (self st)
    (self (fst (final (outter RetrySettings (time_sleep os) (method m)
                         (st, tr))))).
Proof.
  intros Hm. unfold outter, inner.
  apply (loop_invariant RetrySettings (time_sleep os) (method m)
           (fun s => same_config (self st) (self (fst s))))
    with (n := Z.to_nat (Settings.max_tries RetrySettings));
    [| | reflexivity | apply same_config_refl].
  - intros [st' tr'] H. cbn [method fst snd].
    eapply same_config_trans; [exact H | apply Hm].
  - intros d [st' tr'] H. exact H.
Qed.

(** X6: no method changes the host, the port, the address family, the
    socket type, the select timeout or the read buffer size of the
    connection, whatever the library calls return or raise. *)
Theorem configuration_is_kept {World : Type} (os : SocketAPI World)
    (data : bytes) (st : state World) (tr : list event) :
  same_config (self st) (self (post (_raw_release os st))) /\
  same_config (self st) (self (post (_raw_catch os st))) /\
  same_config (self st) (self (post (_reconnect os st))) /\
  same_config (self st) (self (post (_assert_writable os st))) /\
  same_config (self st) (self (post (_assert_readable os st))) /\
  same_config (self st) (self (post (_raw_write os data st))) /\
  same_config (self st) (self (post (_raw_read os st))) /\
  same_config (self st) (self (post (__del__ os st))) /\
  same_config (self st) (self (fst (final (release os (st, tr))))) /\
  same_config (self st) (self (fst (final (catch os (st, tr))))) /\
  same_config (self st) (self (fst (final (write os data (st, tr))))) /\
  same_config (self st) (self (fst (final (read os (st, tr))))).
Proof.
  assert (Hw : forall st', same_config (self st')
                             (self (post (_assert_writable os st'))))
    by (intros st'; rewrite assert_writable_eq; apply assert_ready_config).
  assert (Hr : forall st', same_config (self st')
                             (self (post (_assert_readable os st'))))
    by (intros st'; rewrite assert_readable_eq; apply assert_ready_config).
  split; [apply raw_release_config |].
  split; [apply raw_catch_config |].
  split; [apply reconnect_config |].
  split; [apply Hw |].
  split; [apply Hr |].
  split; [apply raw_write_config |].
  split; [apply raw_read_config |].
  split; [apply raw_release_config |].
  split; [apply decorated_config; intros st'; apply raw_release_config |].
  split; [apply decorated_config; intros st'; apply raw_catch_config |].
  split; [apply decorated_config; intros st'; apply raw_write_config |].
  apply decorated_config; intros st'; apply raw_read_config.
Qed.

(** X7: a socket whose [shutdown] raises is never replaced.
    [_raw_release] and [_reconnect] raise what [shutdown] raised, before
    any [close] or new socket, and after them, after a readiness check,
    a [_raw_write] or a [_raw_read] the connection still holds that
    socket. *)
Theorem stuck_socket_is_never_replaced {World : Type} (os : SocketAPI World)
    (st : state World) (h : handle) :
  socket (self st) = Some h ->
  shutdown_raises os h ->
  (exists e, value (_raw_release os st) = Raised (lib_exn e) /\
             emitted (_raw_release os st) = [EvError e]) /\
  (exists e, value (_reconnect os st) = Raised (lib_exn e) /\
             emitted (_reconnect os st) = [EvReconnect; EvError e]) /\
  self (post (_raw_release os st)) = self st /\
  self (post (_reconnect os st)) = self st /\
  (forall w, self (post (readiness_check os w st)) = self st) /\
  (forall data, self (post (_raw_write os data st)) = self st) /\
  self (post (_raw_read os st)) = self st.
Proof.
  intros Hs Hsh.
  destruct (raw_release_stuck os st h Hs Hsh) as (e1 & w1 & H1).
  destruct (reconnect_stuck os st h Hs Hsh) as (e2 & w2 & H2).
  assert (Hc : forall w, self (post (readiness_check os w st)) = self st).
  { intros w. rewrite readiness_check_eq. now apply assert_ready_stuck with (h := h). }
  rewrite H1, H2. cbn [value post emitted self].
  split; [eauto |]. split; [eauto |].
  split; [reflexivity |]. split; [reflexivity |]. split; [exact Hc |].
  split.
  - intros data. unfold _raw_write, bind.
    specialize (Hc true). cbn [readiness_check] in Hc.
    destruct (_assert_writable os st) as [[[] | e] st1 ev1];
      cbn [value post emitted] in *; [| exact Hc].
    now rewrite (raw_write_loop_self os data _ 0%nat st1 eq_refl).
  - rewrite raw_read_eq.
    specialize (Hc false). cbn [readiness_check] in Hc.
    destruct (_assert_readable os st) as [[[] | e] st1 ev1];
      cbn [value post emitted] in *; [| exact Hc].
    destruct (socket (self st1)) as [h' |]; [| exact Hc].
    destruct (os_recv os h' (read_buffer_size (self st1)) (world st1))
      as [[e | d] w]; exact Hc.
Qed.

Lemma stuck_socket_is_never_replaced_witness :
  self (post (_reconnect rusty_os (State (set_socket (Some 0%nat) printer) tt 1%nat))) =
    set_socket (Some 0%nat) printer /\
  self (post (_raw_write rusty_os abc
                (State (set_socket (Some 0%nat) printer) tt 1%nat))) =
    set_socket (Some 0%nat) printer.
Proof.
  pose proof (stuck_socket_is_never_replaced rusty_os
                (State (set_socket (Some 0%nat) printer) tt 1%nat) 0%nat
                eq_refl) as H.
  destruct H as (_ & _ & _ & Hr & _ & Hw & _).
  - intros w. cbn. eauto.
  - split; [exact Hr | exact (Hw abc)].
Defined.

(** A connected socket that the next poll finds not ready and the one
    after it ready. *)
Definition flapping : state sim :=
  State (set_socket (Some 0%nat) printer) (Sim [false; true] [] false (inr [])) 1%nat.

(** X8: a readiness check that returns ends with a poll that found ready
    the socket the connection then holds.  It made at most one reconnect
    when it started connected, and at most two when it started
    disconnected; without a reconnect the socket is the one it started
    with. *)
Theorem readiness_check_returns_on_ready_socket {World : Type}
    (os : SocketAPI World) (w : bool) (st : state World) :
  value (readiness_check os w st) = Returned tt ->
  exists pre h rs,
    emitted (readiness_check os w st) =
      pre ++ [select_event w (self st) h rs] /\
    pick w rs <> [] /\
    socket (self (post (readiness_check os w st))) = Some h /\
    (reconnects (emitted (readiness_check os w st)) <=
     match socket (self st) with None => 2 | Some _ => 1 end)%nat /\
    (reconnects (emitted (readiness_check os w st)) = 0%nat ->
     socket (self st) = Some h).
Proof.
  rewrite readiness_check_eq.
  destruct (socket (self st)) as [h0 |] eqn:Hs.
  - rewrite (assert_ready_connected _ _ _ _ Hs). cbn [value post emitted].
    intros Hv.
    destruct (ready_loop_returns_ready os w _ st Hv)
      as (pre & h & rs & He & Hne & Hsock & Hc & H0).
    exists pre, h, rs. cbn [List.length] in Hc. rewrite Hs in H0.
    repeat split; auto. lia.
  - rewrite (assert_ready_disconnected _ _ _ Hs).
    destruct (_reconnect os st) as [[[] | e] st1 ev1] eqn:Hr;
      cbn [value post emitted]; [| discriminate].
    destruct (reconnect_returns _ _ _ _ Hr) as (Hself1 & _ & ->).
    intros Hv.
    destruct (ready_loop_returns_ready os w _ st1 Hv)
      as (pre & h & rs & He & Hne & Hsock & Hc & _).
    exists (reconnect_events (self st) (socket (self st)) (next_handle st)
            ++ pre), h, rs.
    rewrite He, Hself1, select_event_set_socket, app_assoc.
    split; [reflexivity |]. split; [exact Hne |]. split; [exact Hsock |].
    rewrite He, Hself1, select_event_set_socket in Hc.
    rewrite <- app_assoc, reconnects_app, reconnects_reconnect_events.
    cbn [List.length] in Hc. split; [lia | intros; lia].
Qed.

Lemma readiness_check_returns_on_ready_socket_witness :
  exists pre h rs,
    emitted (_assert_writable sim_os flapping) =
      pre ++ [select_event true (self flapping) h rs] /\
    pick true rs <> [] /\
    socket (self (post (_assert_writable sim_os flapping))) = Some h /\
    (reconnects (emitted (_assert_writable sim_os flapping)) <= 1)%nat /\
    (reconnects (emitted (_assert_writable sim_os flapping)) = 0%nat ->
     socket (self flapping) = Some h).
Proof.
  apply (readiness_check_returns_on_ready_socket sim_os true flapping).
  reflexivity.
Defined.

Lemma raw_catch_no_release {World : Type} (os : SocketAPI World)
    (st : state World) :
  Forall (fun e => ~ is_release e) (emitted (_raw_catch os st)).
Proof.
  unfold _raw_catch, self_socket.
  unfold bind, get_self, assign_socket, socket_socket, libcall, ret, raise.
  cbn [value post emitted app self world next_handle socket set_socket].
  destruct (os_socket os (address_family (self st)) (socket_type (self st))
              (world st)) as [[e | []] w];
    cbn [value post emitted app self world next_handle socket set_socket];
    [repeat constructor; cbn in *; tauto |].
  destruct (os_setsockopt os (next_handle st) w) as [[e | []] w1];
    cbn [value post emitted app self world next_handle socket set_socket];
    [repeat constructor; cbn in *; tauto |].
  destruct (os_connect os (next_handle st) _ _ w1) as [[e | []] w2];
    cbn [value post emitted app]; repeat constructor; cbn in *; tauto.
Qed.

(** X9: [_raw_catch] never shuts down or closes a socket.  Once
    [socket.socket] has returned, the connection holds the new socket
    object, whether [setsockopt] and [connect] then return or raise; when
    [socket.socket] itself raises, the connection is left as it was. *)
Theorem raw_catch_replaces_without_release {World : Type}
    (os : SocketAPI World) (st : state World) :
  Forall (fun e => ~ is_release e) (emitted (_raw_catch os st)) /\
  match os_socket os (address_family (self st)) (socket_type (self st))
          (world st) with
  | (inl e, _) =>
      value (_raw_catch os st) = Raised (lib_exn e) /\
      self (post (_raw_catch os st)) = self st /\
      next_handle (post (_raw_catch os st)) = next_handle st
  | (inr _, _) =>
      self (post (_raw_catch os st)) =
        set_socket (Some (next_handle st)) (self st) /\
      next_handle (post (_raw_catch os st)) = S (next_handle st) /\
      In (EvSocket (address_family (self st)) (socket_type (self st))
            (next_handle st))
         (emitted (_raw_catch os st))
  end.
Proof.
  split; [apply raw_catch_no_release |].
  unfold _raw_catch, self_socket.
  unfold bind, get_self, assign_socket, socket_socket, libcall, ret, raise.
  cbn [value post emitted app self world next_handle socket set_socket].
  destruct (os_socket os (address_family (self st)) (socket_type (self st))
              (world st)) as [[e | []] w];
    cbn [value post emitted app self world next_handle socket set_socket];
    [auto |].
  destruct (os_setsockopt os (next_handle st) w) as [[e | []] w1];
    cbn [value post emitted app self world next_handle socket set_socket];
    [cbn; auto |].
  destruct (os_connect os (next_handle st) _ _ w1) as [[e | []] w2];
    cbn [value post emitted app self world next_handle]; cbn; auto.
Qed.

(** X10: [_raw_write] of the empty string makes its readiness check, with
    the reconnects that takes, and sends nothing: it returns or raises as
    the check does. *)
Theorem raw_write_of_nothing {World : Type} (os : SocketAPI World)
    (st : state World) :
  value (_raw_write os [] st) = value (_assert_writable os st) /\
  post (_raw_write os [] st) = post (_assert_writable os st) /\
  emitted (_raw_write os [] st) = emitted (_assert_writable os st).
Proof.
  unfold _raw_write, bind.
  destruct (_assert_writable os st) as [[[] | e] st1 ev1];
    cbn [value post emitted]; [| auto].
  rewrite raw_write_loop_step. cbn. now rewrite app_nil_r.
Qed.

(** ** Properties of [create] *)

Lemma rsplit_last_none sep s :
  occurs sep s = false -> rsplit_last sep s = None.
Proof.
  induction s as [| c s IH]; cbn; [reflexivity |].
  destruct (Ascii.eqb c sep); cbn; [discriminate |].
  intros H. now rewrite IH.
Qed.

Lemma rsplit_last_app sep before after :
  occurs sep after = false ->
  rsplit_last sep (before ++ String sep after) = Some (before, after).
Proof.
  intros H. induction before as [| c before IH]; cbn.
  - now rewrite (rsplit_last_none _ _ H), Ascii.eqb_refl.
  - now rewrite IH.
Qed.

Lemma rsplit_last_some sep : forall s before after,
  rsplit_last sep s = Some (before, after) ->
  s = (before ++ String sep after)%string /\ occurs sep after = false.
Proof.
  induction s as [| c s IH]; cbn; intros before after; [discriminate |].
  destruct (rsplit_last sep s) as [[b a] |] eqn:Hs.
  - intros [= <- <-]. destruct (IH b a eq_refl) as (-> & Ho). auto.
  - destruct (Ascii.eqb_spec c sep) as [-> | Hne]; [| discriminate].
    intros [= <- <-]. split; [reflexivity |].
    clear IH. induction s as [| c' s IH']; [reflexivity |].
    cbn in Hs |- *. destruct (rsplit_last sep s) as [[b a] |]; [discriminate |].
    destruct (Ascii.eqb c' sep); [discriminate |]. cbn. now apply IH'.
Qed.

(** X11: [create] splits its argument at the last colon: for a port text
    without a colon, [create(host + ':' + port)] is the connection to
    [host] and [int(port)], a host with colons included, and raises what
    [int(port)] raises. *)
Theorem create_splits_at_last_colon (int : string -> exn + Z)
    (host port : string) (fam : AddressFamily) (ty : SocketKind)
    (timeout : Q) (bufsize : Z) :
  occurs ":" port = false ->
  create int (host ++ String ":" port) fam ty timeout bufsize =
  match int port with
  | inl e => Raised e
  | inr p => Returned (__init__ host p fam ty timeout bufsize)
  end.
Proof.
  intros H. unfold create, rsplit.
  now rewrite (rsplit_last_app _ host port H).
Qed.

Lemma create_splits_at_last_colon_witness :
  create int_of_digits "::1:9100" AF_INET6 SOCK_STREAM 1%Q 4096 =
  Returned (__init__ "::1" 9100 AF_INET6 SOCK_STREAM 1%Q 4096).
Proof.
  apply (create_splits_at_last_colon int_of_digits "::1" "9100").
  reflexivity.
Defined.

(** X12: [create] of a string without a colon raises [ValueError],
    whatever [int] would make of it. *)
Theorem create_without_colon (int : string -> exn + Z)
    (setting : string) (fam : AddressFamily) (ty : SocketKind)
    (timeout : Q) (bufsize : Z) :
  occurs ":" setting = false ->
  create int setting fam ty timeout bufsize =
  Raised (Exc ValueError "not enough values to unpack").
Proof.
  intros H. unfold create, rsplit. now rewrite (rsplit_last_none _ _ H).
Qed.

Lemma create_without_colon_witness :
  create int_of_digits "localhost" AF_INET SOCK_STREAM 1%Q 4096 =
  Raised (Exc ValueError "not enough values to unpack").
Proof.
  apply (create_without_colon int_of_digits "localhost"). reflexivity.
Defined.

(** X13: a connection that [create] returns holds no socket; its host is
    the text before the last colon of the argument, its port the [int]
    of the text after it, and the keyword arguments are its other
    attributes. *)
Theorem create_returns_disconnected (int : string -> exn + Z)
    (setting : string) (fam : AddressFamily) (ty : SocketKind)
    (timeout : Q) (bufsize : Z) (c : NetworkConnection) :
  create int setting fam ty timeout bufsize = Returned c ->
  socket c = None /\
  address_family c = fam /\ socket_type c = ty /\
  select_timeout c = timeout /\ read_buffer_size c = bufsize /\
  exists port,
    setting = (host_name c ++ String ":" port)%string /\
    occurs ":" port = false /\
    int port = inr (port_number c).
Proof.
  unfold create, rsplit.
  destruct (rsplit_last ":" setting) as [[host port] |] eqn:Hs; [| discriminate].
  destruct (int port) as [e | p] eqn:Hi; [discriminate |].
  intros [= <-]. cbn.
  destruct (rsplit_last_some _ _ _ _ Hs) as (-> & Ho).
  repeat split; auto. exists port. auto.
Qed.

Lemma create_returns_disconnected_witness :
  socket printer = None /\
  address_family printer = AF_INET /\ socket_type printer = SOCK_STREAM /\
  select_timeout printer = 1%Q /\ read_buffer_size printer = 4096 /\
  exists port,
    "127.0.0.1:9100"%string = (host_name printer ++ String ":" port)%string /\
    occurs ":" port = false /\
    int_of_digits port = inr (port_number printer).
Proof.
  apply (create_returns_disconnected int_of_digits "127.0.0.1:9100"
           AF_INET SOCK_STREAM 1%Q 4096 printer).
  reflexivity.
Defined.
